(** * Tile: per-tile data and lifecycle manager (src/source/tile.js)

    A shallow embedding of the [Tile] class and the properties of its
    lifecycle predicates, vector-data ingestion and release, GPU upload,
    mask tessellation, expiry bookkeeping and source-feature queries.

    Modelling conventions.
    - JavaScript numbers that hold integers (millisecond timestamps,
      counters, tile ids, vertex coordinates) are [Z]; the 32-bit operators
      [<<] and [>>] are written out with their wrap-around.
    - A field that may be [null] / [undefined] is an [option]; for a
      number-valued field [None] also stands for [NaN], which the code
      never distinguishes from [null] (both are falsy).
    - Methods mutate [this] and call into WebGL-owning collaborators; they
      are functions from the tile to the new tile and the list of
      collaborator calls they make, in program order.
    - The clock ([Date.now()]) is an argument of the methods that read it. *)

From Stdlib Require Import ZArith Lia Strings.Byte.
From stdpp Require Import base option list sets strings.

Local Open Scope Z_scope.

(** ** JavaScript integers *)

Module JS.

(** [ToInt32] and [ToUint32] of an integer-valued number. *)
Definition to_int32 (n : Z) : Z := (n + 2 ^ 31) mod 2 ^ 32 - 2 ^ 31.
Definition to_uint32 (n : Z) : Z := n mod 2 ^ 32.

(** [a << b]: both operands are converted to 32 bits, the shift count is
    masked to five bits and the result is a signed 32-bit integer. *)
Definition shl (a b : Z) : Z :=
  to_int32 (Z.shiftl (to_int32 a) (Z.land (to_uint32 b) 31)).

(** [a >> b]: sign-propagating right shift. *)
Definition shr (a b : Z) : Z :=
  Z.shiftr (to_int32 a) (Z.land (to_uint32 b) 31).

(** Truthiness of a number: everything but [0] (and [NaN], modelled
    apart). *)
Definition truthy (n : Z) : bool := negb (n =? 0).

(** Truthiness of a possibly-null object reference. *)
Definition present {A : Type} (o : option A) : bool :=
  match o with Some _ => true | None => false end.

End JS.

(** ** Data model *)

(** [TileState], lines 35-42. *)
Inductive TileState : Type :=
| loading | loaded | reloading | unloaded | errored | expired.

#[global] Instance TileState_eq_dec : EqDecision TileState.
Proof. solve_decision. Defined.

Module TileCoord.
Record t : Type := mk { z : Z; x : Z; y : Z }.
End TileCoord.

(** Images handed over by the worker and the textures made from them. *)
Record Image : Type := { img_width : Z; img_height : Z; img_data : list Z }.
Inductive TextureFormat : Type := RGBA | ALPHA.
Record Texture : Type := { tex_image : Image; tex_format : TextureFormat }.

(** A bucket object as far as [Tile] looks into it: its kind
    ([instanceof SymbolBucket]) and its [uploaded] flag. *)
Inductive BucketKind : Type := SymbolBucket | OtherBucket.
Record Bucket : Type := { kind : BucketKind; uploaded : bool }.

(** [buckets : {[string]: Bucket}].  A JavaScript object maps each layer id
    to a reference, and two ids may refer to one bucket object; the bucket
    objects are kept in [objects] and [layers] lists the own keys in
    enumeration order, each with the position of its bucket. *)
Record Buckets : Type := { objects : list Bucket; layers : list (string * nat) }.

Definition no_buckets : Buckets := {| objects := []; layers := [] |}.

Definition ArrayBuffer : Type := list byte.
Definition CollisionBoxArray : Type := list Z.

Record FeatureIndex : Type :=
  { fi_serialized : list Z; fi_rawTileData : option ArrayBuffer }.

Record VectorTileFeature : Type :=
  { vtf_id : Z; vtf_properties : list (string * string) }.
Definition VectorTileLayer : Type := list VectorTileFeature.
Definition VtLayers : Type := list (string * VectorTileLayer).

(** [Mask = {[number]: boolean}]: own keys in enumeration order. *)
Abbreviation Mask := (list (Z * bool)) (only parsing).

Record Segment : Type :=
  { vertexOffset : Z; primitiveOffset : Z;
    vertexLength : Z; primitiveLength : Z }.
Abbreviation SegmentVector := (list Segment) (only parsing).

(** One element of a [RasterBoundsArray] (position and texture position)
    and of a [TriangleIndexArray]. *)
Abbreviation BoundsVertex := (Z * Z * Z * Z)%type (only parsing).
Abbreviation Triangle := (Z * Z * Z)%type (only parsing).
Record VertexBuffer : Type := { vb_array : list BoundsVertex }.
Record IndexBuffer : Type := { ib_array : list Triangle }.

(** The fields of [Tile] (lines 51-83) that its methods read or write. *)
Record Tile : Type :=
  { coord : TileCoord.t;
    uid : Z;
    uses : Z;
    tileSize : Z;
    sourceMaxZoom : Z;
    buckets : Buckets;
    iconAtlasImage : option Image;
    iconAtlasTexture : option Texture;
    glyphAtlasImage : option Image;
    glyphAtlasTexture : option Texture;
    expirationTime : option Z;
    expiredRequestCount : Z;
    state : TileState;
    rawTileData : option ArrayBuffer;
    collisionBoxArray : option CollisionBoxArray;
    featureIndex : option FeatureIndex;
    vtLayers : option VtLayers;
    mask : option Mask;
    maskedBoundsBuffer : option VertexBuffer;
    maskedIndexBuffer : option IndexBuffer;
    segments : option SegmentVector }.

(** Calls a method makes on the objects the tile owns. *)
Inductive Call : Type :=
| BucketDestroy (layer : string) (obj : nat)
| BucketUpload (layer : string) (obj : nat)
| TextureCreate (img : Image) (fmt : TextureFormat)
| TextureDestroy (tex : Texture)
| SegmentsDestroy (s : SegmentVector)
| VertexBufferCreate (arr : list BoundsVertex)
| VertexBufferDestroy (b : VertexBuffer)
| IndexBufferCreate (arr : list Triangle)
| IndexBufferDestroy (b : IndexBuffer).

(** *** Field assignment

    [set_f v t] is the tile after [this.f = v]. *)

Definition set_buckets (v : Buckets) (t : Tile) : Tile :=
  {| coord := coord t; uid := uid t; uses := uses t; tileSize := tileSize t;
     sourceMaxZoom := sourceMaxZoom t; buckets := v;
     iconAtlasImage := iconAtlasImage t;
     iconAtlasTexture := iconAtlasTexture t;
     glyphAtlasImage := glyphAtlasImage t;
     glyphAtlasTexture := glyphAtlasTexture t;
     expirationTime := expirationTime t;
     expiredRequestCount := expiredRequestCount t; state := state t;
     rawTileData := rawTileData t; collisionBoxArray := collisionBoxArray t;
     featureIndex := featureIndex t; vtLayers := vtLayers t; mask := mask t;
     maskedBoundsBuffer := maskedBoundsBuffer t;
     maskedIndexBuffer := maskedIndexBuffer t; segments := segments t |}.

Definition set_iconAtlasImage (v : option Image) (t : Tile) : Tile :=
  {| coord := coord t; uid := uid t; uses := uses t; tileSize := tileSize t;
     sourceMaxZoom := sourceMaxZoom t; buckets := buckets t;
     iconAtlasImage := v; iconAtlasTexture := iconAtlasTexture t;
     glyphAtlasImage := glyphAtlasImage t;
     glyphAtlasTexture := glyphAtlasTexture t;
     expirationTime := expirationTime t;
     expiredRequestCount := expiredRequestCount t; state := state t;
     rawTileData := rawTileData t; collisionBoxArray := collisionBoxArray t;
     featureIndex := featureIndex t; vtLayers := vtLayers t; mask := mask t;
     maskedBoundsBuffer := maskedBoundsBuffer t;
     maskedIndexBuffer := maskedIndexBuffer t; segments := segments t |}.

Definition set_iconAtlasTexture (v : option Texture) (t : Tile) : Tile :=
  {| coord := coord t; uid := uid t; uses := uses t; tileSize := tileSize t;
     sourceMaxZoom := sourceMaxZoom t; buckets := buckets t;
     iconAtlasImage := iconAtlasImage t; iconAtlasTexture := v;
     glyphAtlasImage := glyphAtlasImage t;
     glyphAtlasTexture := glyphAtlasTexture t;
     expirationTime := expirationTime t;
     expiredRequestCount := expiredRequestCount t; state := state t;
     rawTileData := rawTileData t; collisionBoxArray := collisionBoxArray t;
     featureIndex := featureIndex t; vtLayers := vtLayers t; mask := mask t;
     maskedBoundsBuffer := maskedBoundsBuffer t;
     maskedIndexBuffer := maskedIndexBuffer t; segments := segments t |}.

Definition set_glyphAtlasImage (v : option Image) (t : Tile) : Tile :=
  {| coord := coord t; uid := uid t; uses := uses t; tileSize := tileSize t;
     sourceMaxZoom := sourceMaxZoom t; buckets := buckets t;
     iconAtlasImage := iconAtlasImage t;
     iconAtlasTexture := iconAtlasTexture t; glyphAtlasImage := v;
     glyphAtlasTexture := glyphAtlasTexture t;
     expirationTime := expirationTime t;
     expiredRequestCount := expiredRequestCount t; state := state t;
     rawTileData := rawTileData t; collisionBoxArray := collisionBoxArray t;
     featureIndex := featureIndex t; vtLayers := vtLayers t; mask := mask t;
     maskedBoundsBuffer := maskedBoundsBuffer t;
     maskedIndexBuffer := maskedIndexBuffer t; segments := segments t |}.

Definition set_glyphAtlasTexture (v : option Texture) (t : Tile) : Tile :=
  {| coord := coord t; uid := uid t; uses := uses t; tileSize := tileSize t;
     sourceMaxZoom := sourceMaxZoom t; buckets := buckets t;
     iconAtlasImage := iconAtlasImage t;
     iconAtlasTexture := iconAtlasTexture t;
     glyphAtlasImage := glyphAtlasImage t; glyphAtlasTexture := v;
     expirationTime := expirationTime t;
     expiredRequestCount := expiredRequestCount t; state := state t;
     rawTileData := rawTileData t; collisionBoxArray := collisionBoxArray t;
     featureIndex := featureIndex t; vtLayers := vtLayers t; mask := mask t;
     maskedBoundsBuffer := maskedBoundsBuffer t;
     maskedIndexBuffer := maskedIndexBuffer t; segments := segments t |}.

Definition set_expirationTime (v : option Z) (t : Tile) : Tile :=
  {| coord := coord t; uid := uid t; uses := uses t; tileSize := tileSize t;
     sourceMaxZoom := sourceMaxZoom t; buckets := buckets t;
     iconAtlasImage := iconAtlasImage t;
     iconAtlasTexture := iconAtlasTexture t;
     glyphAtlasImage := glyphAtlasImage t;
     glyphAtlasTexture := glyphAtlasTexture t; expirationTime := v;
     expiredRequestCount := expiredRequestCount t; state := state t;
     rawTileData := rawTileData t; collisionBoxArray := collisionBoxArray t;
     featureIndex := featureIndex t; vtLayers := vtLayers t; mask := mask t;
     maskedBoundsBuffer := maskedBoundsBuffer t;
     maskedIndexBuffer := maskedIndexBuffer t; segments := segments t |}.

Definition set_expiredRequestCount (v : Z) (t : Tile) : Tile :=
  {| coord := coord t; uid := uid t; uses := uses t; tileSize := tileSize t;
     sourceMaxZoom := sourceMaxZoom t; buckets := buckets t;
     iconAtlasImage := iconAtlasImage t;
     iconAtlasTexture := iconAtlasTexture t;
     glyphAtlasImage := glyphAtlasImage t;
     glyphAtlasTexture := glyphAtlasTexture t;
     expirationTime := expirationTime t; expiredRequestCount := v;
     state := state t; rawTileData := rawTileData t;
     collisionBoxArray := collisionBoxArray t;
     featureIndex := featureIndex t; vtLayers := vtLayers t; mask := mask t;
     maskedBoundsBuffer := maskedBoundsBuffer t;
     maskedIndexBuffer := maskedIndexBuffer t; segments := segments t |}.

Definition set_state (v : TileState) (t : Tile) : Tile :=
  {| coord := coord t; uid := uid t; uses := uses t; tileSize := tileSize t;
     sourceMaxZoom := sourceMaxZoom t; buckets := buckets t;
     iconAtlasImage := iconAtlasImage t;
     iconAtlasTexture := iconAtlasTexture t;
     glyphAtlasImage := glyphAtlasImage t;
     glyphAtlasTexture := glyphAtlasTexture t;
     expirationTime := expirationTime t;
     expiredRequestCount := expiredRequestCount t; state := v;
     rawTileData := rawTileData t; collisionBoxArray := collisionBoxArray t;
     featureIndex := featureIndex t; vtLayers := vtLayers t; mask := mask t;
     maskedBoundsBuffer := maskedBoundsBuffer t;
     maskedIndexBuffer := maskedIndexBuffer t; segments := segments t |}.

Definition set_rawTileData (v : option ArrayBuffer) (t : Tile) : Tile :=
  {| coord := coord t; uid := uid t; uses := uses t; tileSize := tileSize t;
     sourceMaxZoom := sourceMaxZoom t; buckets := buckets t;
     iconAtlasImage := iconAtlasImage t;
     iconAtlasTexture := iconAtlasTexture t;
     glyphAtlasImage := glyphAtlasImage t;
     glyphAtlasTexture := glyphAtlasTexture t;
     expirationTime := expirationTime t;
     expiredRequestCount := expiredRequestCount t; state := state t;
     rawTileData := v; collisionBoxArray := collisionBoxArray t;
     featureIndex := featureIndex t; vtLayers := vtLayers t; mask := mask t;
     maskedBoundsBuffer := maskedBoundsBuffer t;
     maskedIndexBuffer := maskedIndexBuffer t; segments := segments t |}.

Definition set_collisionBoxArray (v : option CollisionBoxArray) (t : Tile) : Tile :=
  {| coord := coord t; uid := uid t; uses := uses t; tileSize := tileSize t;
     sourceMaxZoom := sourceMaxZoom t; buckets := buckets t;
     iconAtlasImage := iconAtlasImage t;
     iconAtlasTexture := iconAtlasTexture t;
     glyphAtlasImage := glyphAtlasImage t;
     glyphAtlasTexture := glyphAtlasTexture t;
     expirationTime := expirationTime t;
     expiredRequestCount := expiredRequestCount t; state := state t;
     rawTileData := rawTileData t; collisionBoxArray := v;
     featureIndex := featureIndex t; vtLayers := vtLayers t; mask := mask t;
     maskedBoundsBuffer := maskedBoundsBuffer t;
     maskedIndexBuffer := maskedIndexBuffer t; segments := segments t |}.

Definition set_featureIndex (v : option FeatureIndex) (t : Tile) : Tile :=
  {| coord := coord t; uid := uid t; uses := uses t; tileSize := tileSize t;
     sourceMaxZoom := sourceMaxZoom t; buckets := buckets t;
     iconAtlasImage := iconAtlasImage t;
     iconAtlasTexture := iconAtlasTexture t;
     glyphAtlasImage := glyphAtlasImage t;
     glyphAtlasTexture := glyphAtlasTexture t;
     expirationTime := expirationTime t;
     expiredRequestCount := expiredRequestCount t; state := state t;
     rawTileData := rawTileData t; collisionBoxArray := collisionBoxArray t;
     featureIndex := v; vtLayers := vtLayers t; mask := mask t;
     maskedBoundsBuffer := maskedBoundsBuffer t;
     maskedIndexBuffer := maskedIndexBuffer t; segments := segments t |}.

Definition set_vtLayers (v : option VtLayers) (t : Tile) : Tile :=
  {| coord := coord t; uid := uid t; uses := uses t; tileSize := tileSize t;
     sourceMaxZoom := sourceMaxZoom t; buckets := buckets t;
     iconAtlasImage := iconAtlasImage t;
     iconAtlasTexture := iconAtlasTexture t;
     glyphAtlasImage := glyphAtlasImage t;
     glyphAtlasTexture := glyphAtlasTexture t;
     expirationTime := expirationTime t;
     expiredRequestCount := expiredRequestCount t; state := state t;
     rawTileData := rawTileData t; collisionBoxArray := collisionBoxArray t;
     featureIndex := featureIndex t; vtLayers := v; mask := mask t;
     maskedBoundsBuffer := maskedBoundsBuffer t;
     maskedIndexBuffer := maskedIndexBuffer t; segments := segments t |}.

Definition set_mask (v : option Mask) (t : Tile) : Tile :=
  {| coord := coord t; uid := uid t; uses := uses t; tileSize := tileSize t;
     sourceMaxZoom := sourceMaxZoom t; buckets := buckets t;
     iconAtlasImage := iconAtlasImage t;
     iconAtlasTexture := iconAtlasTexture t;
     glyphAtlasImage := glyphAtlasImage t;
     glyphAtlasTexture := glyphAtlasTexture t;
     expirationTime := expirationTime t;
     expiredRequestCount := expiredRequestCount t; state := state t;
     rawTileData := rawTileData t; collisionBoxArray := collisionBoxArray t;
     featureIndex := featureIndex t; vtLayers := vtLayers t; mask := v;
     maskedBoundsBuffer := maskedBoundsBuffer t;
     maskedIndexBuffer := maskedIndexBuffer t; segments := segments t |}.

Definition set_maskedBoundsBuffer (v : option VertexBuffer) (t : Tile) : Tile :=
  {| coord := coord t; uid := uid t; uses := uses t; tileSize := tileSize t;
     sourceMaxZoom := sourceMaxZoom t; buckets := buckets t;
     iconAtlasImage := iconAtlasImage t;
     iconAtlasTexture := iconAtlasTexture t;
     glyphAtlasImage := glyphAtlasImage t;
     glyphAtlasTexture := glyphAtlasTexture t;
     expirationTime := expirationTime t;
     expiredRequestCount := expiredRequestCount t; state := state t;
     rawTileData := rawTileData t; collisionBoxArray := collisionBoxArray t;
     featureIndex := featureIndex t; vtLayers := vtLayers t; mask := mask t;
     maskedBoundsBuffer := v; maskedIndexBuffer := maskedIndexBuffer t;
     segments := segments t |}.

Definition set_maskedIndexBuffer (v : option IndexBuffer) (t : Tile) : Tile :=
  {| coord := coord t; uid := uid t; uses := uses t; tileSize := tileSize t;
     sourceMaxZoom := sourceMaxZoom t; buckets := buckets t;
     iconAtlasImage := iconAtlasImage t;
     iconAtlasTexture := iconAtlasTexture t;
     glyphAtlasImage := glyphAtlasImage t;
     glyphAtlasTexture := glyphAtlasTexture t;
     expirationTime := expirationTime t;
     expiredRequestCount := expiredRequestCount t; state := state t;
     rawTileData := rawTileData t; collisionBoxArray := collisionBoxArray t;
     featureIndex := featureIndex t; vtLayers := vtLayers t; mask := mask t;
     maskedBoundsBuffer := maskedBoundsBuffer t; maskedIndexBuffer := v;
     segments := segments t |}.

Definition set_segments (v : option SegmentVector) (t : Tile) : Tile :=
  {| coord := coord t; uid := uid t; uses := uses t; tileSize := tileSize t;
     sourceMaxZoom := sourceMaxZoom t; buckets := buckets t;
     iconAtlasImage := iconAtlasImage t;
     iconAtlasTexture := iconAtlasTexture t;
     glyphAtlasImage := glyphAtlasImage t;
     glyphAtlasTexture := glyphAtlasTexture t;
     expirationTime := expirationTime t;
     expiredRequestCount := expiredRequestCount t; state := state t;
     rawTileData := rawTileData t; collisionBoxArray := collisionBoxArray t;
     featureIndex := featureIndex t; vtLayers := vtLayers t; mask := mask t;
     maskedBoundsBuffer := maskedBoundsBuffer t;
     maskedIndexBuffer := maskedIndexBuffer t; segments := v |}.

(** ** Lifecycle predicates *)

(** [constructor], lines 90-106; [uid] is the value [util.uniqueId()]
    returns. *)
Definition new_Tile (c : TileCoord.t) (fresh_uid size maxZoom : Z) : Tile :=
  {| coord := c; uid := fresh_uid; uses := 0; tileSize := size;
     sourceMaxZoom := maxZoom; buckets := no_buckets;
     iconAtlasImage := None; iconAtlasTexture := None;
     glyphAtlasImage := None; glyphAtlasTexture := None;
     expirationTime := None; expiredRequestCount := 0; state := loading;
     rawTileData := None; collisionBoxArray := None; featureIndex := None;
     vtLayers := None; mask := None; maskedBoundsBuffer := None;
     maskedIndexBuffer := None; segments := None |}.

(** [wasRequested], lines 117-119. *)
Definition wasRequested (t : Tile) : bool :=
  bool_decide (state t = errored) || bool_decide (state t = loaded)
  || bool_decide (state t = reloading).

(** [hasData], lines 385-387. *)
Definition hasData (t : Tile) : bool :=
  bool_decide (state t = loaded) || bool_decide (state t = reloading)
  || bool_decide (state t = expired).

(** ** Collaborators

    The modules [tile.js] requires (lines 3-24) are not part of this file;
    what the methods use of them is gathered in an environment. *)

Record SerializedBucket : Type :=
  { layerIds : list string; sb_kind : BucketKind }.
Definition Style : Type := list string.
Record Painter : Type := { style : Style }.

Inductive FilterSpecification : Type := FilterExpr (src : string).

Record Env : Type :=
  { (** [require('../data/extent')] *)
    EXTENT : Z;
    (** [TileCoord.fromID] *)
    fromID : Z -> TileCoord.t;
    (** [SegmentVector.MAX_VERTEX_ARRAY_LENGTH] *)
    MAX_VERTEX_ARRAY_LENGTH : Z;
    (** [new vt.VectorTile(new Protobuf(raw)).layers] *)
    VectorTile_layers : ArrayBuffer -> VtLayers;
    (** [featureFilter(spec)], applied to [{zoom: z}] and a feature *)
    featureFilter : option FilterSpecification -> Z -> VectorTileFeature -> bool;
    (** [require('../data/bucket').deserialize] *)
    deserializeBucket : list SerializedBucket -> Style -> Buckets }.

(** The payload of [loadVectorData] ([WorkerTileResult], §6). *)
Record WorkerTileResult : Type :=
  { wr_rawTileData : option ArrayBuffer;
    wr_collisionBoxArray : list Z;
    wr_featureIndex : list Z;
    wr_buckets : list SerializedBucket;
    wr_iconAtlasImage : option Image;
    wr_glyphAtlasImage : option Image }.

(** ** Vector data: ingest, release, upload *)

Definition destroy_texture (tex : option Texture) : list Call :=
  match tex with
  | Some x => [TextureDestroy x]
  | None => []
  end.

(** [unloadVectorData], lines 172-188. *)
Definition unloadVectorData (t : Tile) : Tile * list Call :=
  let destroyed :=
    (fun e : string * nat => BucketDestroy e.1 e.2) <$> layers (buckets t) in
  let t := set_buckets no_buckets t in
  let icon := destroy_texture (iconAtlasTexture t) in
  let glyph := destroy_texture (glyphAtlasTexture t) in
  let t := set_collisionBoxArray None t in
  let t := set_featureIndex None t in
  let t := set_state unloaded t in
  (t, destroyed ++ icon ++ glyph).

(** The two guarded assignments of lines 152-157, which lines 159-164
    repeat. *)
Definition take_atlas_images (d : WorkerTileResult) (t : Tile) : Tile :=
  let t := match wr_iconAtlasImage d with
           | Some img => set_iconAtlasImage (Some img) t
           | None => t
           end in
  match wr_glyphAtlasImage d with
  | Some img => set_glyphAtlasImage (Some img) t
  | None => t
  end.

(** [loadVectorData], lines 131-165.  [new CollisionBoxArray()] is the
    empty array and [FeatureIndex.deserialize] binds the serialized index
    to the raw bytes the tile holds at that point. *)
Definition loadVectorData (env : Env) (data : option WorkerTileResult)
    (painter : Painter) (t : Tile) : Tile * list Call :=
  let '(t, released) :=
    if hasData t then unloadVectorData t else (t, []) in
  let t := set_state loaded t in
  match data with
  | None => (set_collisionBoxArray (Some []) t, released)
  | Some d =>
      let t := match wr_rawTileData d with
               | Some raw => set_rawTileData (Some raw) t
               | None => t
               end in
      let t := set_collisionBoxArray (Some (wr_collisionBoxArray d)) t in
      let t := set_featureIndex
                 (Some {| fi_serialized := wr_featureIndex d;
                          fi_rawTileData := rawTileData t |}) t in
      let t := set_buckets (deserializeBucket env (wr_buckets d) (style painter)) t in
      let t := take_atlas_images d t in
      let t := take_atlas_images d t in
      (t, released)
  end.

(** [this.buckets[id]] on the key list. *)
Fixpoint lookup_layer (id : string) (ls : list (string * nat)) : option nat :=
  match ls with
  | [] => None
  | (k, r) :: ls' => if String.eqb k id then Some r else lookup_layer id ls'
  end.

(** [getBucket], lines 241-243. *)
Definition getBucket (layer_id : string) (t : Tile) : option Bucket :=
  match lookup_layer layer_id (layers (buckets t)) with
  | Some r => objects (buckets t) !! r
  | None => None
  end.

Definition mark_uploaded (b : Bucket) : Bucket :=
  {| kind := kind b; uploaded := true |}.

(** The loop of lines 246-252 over the keys [ls], on the bucket objects
    [objs]: a bucket whose flag is clear is uploaded and flagged, in
    place, so a later key of the same object finds the flag set.  (A key
    always refers to an object; the [None] case is there to make the
    function total.) *)
Fixpoint upload_buckets (ls : list (string * nat)) (objs : list Bucket)
    : list Bucket * list Call :=
  match ls with
  | [] => (objs, [])
  | (id, r) :: ls' =>
      match objs !! r with
      | Some b =>
          if uploaded b then upload_buckets ls' objs
          else
            let '(objs', calls) :=
              upload_buckets ls' (<[r := mark_uploaded b]> objs) in
            (objs', BucketUpload id r :: calls)
      | None => upload_buckets ls' objs
      end
  end.

(** [upload], lines 245-263. *)
Definition upload (t : Tile) : Tile * list Call :=
  let '(objs, uploads) :=
    upload_buckets (layers (buckets t)) (objects (buckets t)) in
  let t := set_buckets {| objects := objs; layers := layers (buckets t) |} t in
  let '(t, icon) :=
    match iconAtlasImage t with
    | Some img =>
        (set_iconAtlasImage None
           (set_iconAtlasTexture (Some {| tex_image := img; tex_format := RGBA |}) t),
         [TextureCreate img RGBA])
    | None => (t, [])
    end in
  let '(t, glyph) :=
    match glyphAtlasImage t with
    | Some img =>
        (set_glyphAtlasImage None
           (set_glyphAtlasTexture (Some {| tex_image := img; tex_format := ALPHA |}) t),
         [TextureCreate img ALPHA])
    | None => (t, [])
    end in
  (t, uploads ++ icon ++ glyph).

(** ** Source-feature queries *)

Record QueryParams : Type :=
  { sourceLayer : option string; filter_spec : option FilterSpecification }.

Record GeoJSONFeature : Type :=
  { gj_feature : VectorTileFeature;
    gj_z : Z; gj_x : Z; gj_y : Z;
    gj_tile : TileCoord.t }.

(** Property lookup [layers[key]] on the parsed layers. *)
Fixpoint lookup_vtLayer (key : string) (ls : VtLayers) : option VectorTileLayer :=
  match ls with
  | [] => None
  | (k, l) :: ls' => if String.eqb k key then Some l else lookup_vtLayer key ls'
  end.

(** The key [this.vtLayers[sourceLayer]] reads: [''] without [params], and
    the property name ["undefined"] when [params.sourceLayer] is absent. *)
Definition sourceLayer_key (params : option QueryParams) : string :=
  match params with
  | Some p => match sourceLayer p with Some s => s | None => "undefined" end
  | None => ""
  end.

(** [this.vtLayers._geojsonTileLayer || this.vtLayers[sourceLayer]], line
    304. *)
Definition select_layer (params : option QueryParams) (parsed : VtLayers)
    : option VectorTileLayer :=
  match lookup_vtLayer "_geojsonTileLayer" parsed with
  | Some l => Some l
  | None => lookup_vtLayer (sourceLayer_key params) parsed
  end.

(** [new GeoJSONFeature(feature, z, x, y)] with its [tile] property set,
    lines 309 and 314-315. *)
Definition geojsonFeature (c : TileCoord.t) (f : VectorTileFeature) : GeoJSONFeature :=
  {| gj_feature := f;
     gj_z := TileCoord.z c; gj_x := TileCoord.x c; gj_y := TileCoord.y c;
     gj_tile := TileCoord.mk (TileCoord.z c) (TileCoord.x c) (TileCoord.y c) |}.

(** [querySourceFeatures], lines 296-319: the tile (its [vtLayers] are
    parsed on first use) and the [result] array after the call. *)
Definition querySourceFeatures (env : Env) (result : list GeoJSONFeature)
    (params : option QueryParams) (t : Tile) : Tile * list GeoJSONFeature :=
  match rawTileData t with
  | None => (t, result)
  | Some raw =>
      let t :=
        if JS.present (vtLayers t) then t
        else set_vtLayers (Some (VectorTile_layers env raw)) t in
      match vtLayers t with
      | None => (t, result) (* not reached: the field has just been set *)
      | Some parsed =>
          match select_layer params parsed with
          | None => (t, result)
          | Some layer =>
              let flt := featureFilter env (params ≫= filter_spec) in
              let z := TileCoord.z (coord t) in
              (t, result
                  ++ (geojsonFeature (coord t) <$> List.filter (flt z) layer))
          end
      end
  end.

(** ** Masks *)

(** [mask[key]]. *)
Fixpoint lookup_mask (key : Z) (m : Mask) : option bool :=
  match m with
  | [] => None
  | (k, v) :: m' => if k =? key then Some v else lookup_mask key m'
  end.

(** Modelled from the spec: [util.deepEqual] is not among the sources; §4.4
    has [setMask] compare masks for being deep-equal.  Two mask objects
    are deep-equal when they have as many own keys and every key of the
    first holds the same boolean in the second. *)
Definition deepEqual_obj (a b : Mask) : bool :=
  bool_decide (length a = length b)
  && forallb (fun e : Z * bool => bool_decide (lookup_mask e.1 b = Some e.2)) a.

(** Modelled from the spec: deep equality where a side may be [undefined]
    (the [mask] field of a tile no mask was set on): two objects are
    compared key by key, and [undefined] equals only itself. *)
Definition deepEqual (a b : option Mask) : bool :=
  match a, b with
  | Some a', Some b' => deepEqual_obj a' b'
  | None, None => true
  | _, _ => false
  end.

(** The sentinel [{'0': true}] of line 346: render the whole tile. *)
Definition whole_tile : Mask := [(0, true)].

Definition destroy_segments (s : option SegmentVector) : list Call :=
  match s with Some x => [SegmentsDestroy x] | None => [] end.
Definition destroy_vertexBuffer (b : option VertexBuffer) : list Call :=
  match b with Some x => [VertexBufferDestroy x] | None => [] end.
Definition destroy_indexBuffer (b : option IndexBuffer) : list Call :=
  match b with Some x => [IndexBufferDestroy x] | None => [] end.

(** [clearMask], lines 321-334. *)
Definition clearMask (t : Tile) : Tile * list Call :=
  let c1 := destroy_segments (segments t) in
  let t := set_segments None t in
  let c2 := destroy_vertexBuffer (maskedBoundsBuffer t) in
  let t := set_maskedBoundsBuffer None t in
  let c3 := destroy_indexBuffer (maskedIndexBuffer t) in
  let t := set_maskedIndexBuffer None t in
  (t, c1 ++ c2 ++ c3).

(** Modelled from the spec: [SegmentVector.prepareSegment] of
    [data/segment], the segment allocator of §4.4 and §6, is not among the
    sources.  A segment batches the vertices and indices of one draw call:
    it records where it starts in the vertex and index arrays and counts
    the vertices and primitives put into it.  [prepareSegment] hands out
    the segment in use and starts a new one, at the current ends of the
    two arrays, when there is none yet or when the vertices asked for
    would take it past [MAX_VERTEX_ARRAY_LENGTH].  The segment handed out
    is the last of the vector. *)
Definition prepareSegment (env : Env) (numVertices : Z)
    (vertexArrayLength indexArrayLength : Z) (segs : SegmentVector)
    : SegmentVector :=
  let fresh := {| vertexOffset := vertexArrayLength;
                  primitiveOffset := indexArrayLength;
                  vertexLength := 0; primitiveLength := 0 |} in
  match last segs with
  | Some s =>
      if vertexLength s + numVertices >? MAX_VERTEX_ARRAY_LENGTH env
      then segs ++ [fresh] else segs
  | None => segs ++ [fresh]
  end.

(** An assignment through the reference [prepareSegment] returned: the
    last segment of the vector changes in place. *)
Fixpoint alter_last {A : Type} (f : A -> A) (l : list A) : list A :=
  match l with
  | [] => []
  | [a] => [f a]
  | a :: l' => a :: alter_last f l'
  end.

(** The arrays and segments the loop of lines 357-379 works on. *)
Record Tessellation : Type :=
  { maskedBoundsArray : list BoundsVertex;
    indexArray : list Triangle;
    segmentVector : SegmentVector }.

(** One iteration of the loop, for the mask key [key]. *)
Definition tessellate_key (env : Env) (key : Z) (a : Tessellation) : Tessellation :=
  let maskCoord := fromID env key in
  let vertexExtent := JS.shr (EXTENT env) (TileCoord.z maskCoord) in
  let tl_x := TileCoord.x maskCoord * vertexExtent in
  let tl_y := TileCoord.y maskCoord * vertexExtent in
  let br_x := tl_x + vertexExtent in
  let br_y := tl_y + vertexExtent in
  let segs :=
    prepareSegment env 4 (Z.of_nat (length (maskedBoundsArray a)))
      (Z.of_nat (length (indexArray a))) (segmentVector a) in
  let verts :=
    maskedBoundsArray a
    ++ [(tl_x, tl_y, tl_x, tl_y); (br_x, tl_y, br_x, tl_y);
        (tl_x, br_y, tl_x, br_y); (br_x, br_y, br_x, br_y)] in
  let offset := match last segs with Some s => vertexLength s | None => 0 end in
  let tris :=
    indexArray a
    ++ [(offset, offset + 1, offset + 2); (offset + 1, offset + 2, offset + 3)] in
  let bump (s : Segment) :=
    {| vertexOffset := vertexOffset s; primitiveOffset := primitiveOffset s;
       vertexLength := vertexLength s + 4;
       primitiveLength := primitiveLength s + 2 |} in
  {| maskedBoundsArray := verts; indexArray := tris;
     segmentVector := alter_last bump segs |}.

(** The loop over [Object.keys(mask)]. *)
Fixpoint tessellate (env : Env) (keys : list Z) (a : Tessellation) : Tessellation :=
  match keys with
  | [] => a
  | key :: keys' => tessellate env keys' (tessellate_key env key a)
  end.

(** [setMask], lines 336-383. *)
Definition setMask (env : Env) (m : Mask) (t : Tile) : Tile * list Call :=
  if deepEqual (mask t) (Some m) then (t, [])
  else
    let t := set_mask (Some m) t in
    let '(t, cleared) := clearMask t in
    if deepEqual (Some m) (Some whole_tile) then (t, cleared)
    else
      let start :=
        {| maskedBoundsArray := []; indexArray := [];
           segmentVector := prepareSegment env 0 0 0 [] |} in
      let a := tessellate env (fst <$> m) start in
      let t := set_segments (Some (segmentVector a)) t in
      let t := set_maskedBoundsBuffer
                 (Some {| vb_array := maskedBoundsArray a |}) t in
      let t := set_maskedIndexBuffer (Some {| ib_array := indexArray a |}) t in
      (t, cleared ++ [VertexBufferCreate (maskedBoundsArray a);
                      IndexBufferCreate (indexArray a)]).

(** ** Expiry *)

Definition CLOCK_SKEW_RETRY_TIMEOUT : Z := 30000.

(** The response metadata [setExpiryData] reads, with the results of the
    helpers it passes them to.  [cacheControl] is [None] when
    [data.cacheControl] is falsy; otherwise it holds what
    [parsedCC['max-age']] gives: [None] when that is falsy, else the
    number [parsedCC['max-age'] * 1000] ([None] for [NaN]).  [expires] is
    [None] when [data.expires] is falsy, else
    [new Date(data.expires).getTime()] ([None] for an invalid date). *)
Record ExpiryData : Type :=
  { cacheControl : option (option (option Z));
    expires : option (option Z) }.

(** Lines 392-397: the expiration the response metadata gives, or the one
    the tile had.  [now_cc] is the clock reading of line 394. *)
Definition newExpiration (data : ExpiryData) (now_cc : Z) (t : Tile) : option Z :=
  match cacheControl data with
  | Some parsedCC =>
      match parsedCC with
      | Some max_age_ms => (fun ms => now_cc + ms) <$> max_age_ms
      | None => expirationTime t
      end
  | None =>
      match expires data with
      | Some time => time
      | None => expirationTime t
      end
  end.

(** [setExpiryData], lines 389-436.  [now] is the clock reading of line
    400. *)
Definition setExpiryData (data : ExpiryData) (now_cc now : Z) (t : Tile) : Tile :=
  let prior := expirationTime t in
  let t := set_expirationTime (newExpiration data now_cc t) t in
  match expirationTime t with
  | None => t
  | Some e =>
      if JS.truthy e then
        let '(isExpired, t) :=
          if e >? now then (false, t)
          else
            match prior with
            | None => (true, t)
            | Some p =>
                if negb (JS.truthy p) then (true, t)
                else if e <? p then (true, t)
                else
                  let delta := e - p in
                  if negb (JS.truthy delta) then (true, t)
                  else
                    (false,
                     set_expirationTime
                       (Some (now + Z.max delta CLOCK_SKEW_RETRY_TIMEOUT)) t)
            end in
        if isExpired then
          set_state expired
            (set_expiredRequestCount (expiredRequestCount t + 1) t)
        else set_expiredRequestCount 0 t
      else t
  end.

(** [getExpiryTimeout], lines 438-447; [None] is the [undefined] the
    method returns when it falls through.  [now] is [new Date().getTime()]. *)
Definition getExpiryTimeout (now : Z) (t : Tile) : option Z :=
  match expirationTime t with
  | Some e =>
      if JS.truthy e then
        if JS.truthy (expiredRequestCount t) then
          Some (1000 * JS.shl 1 (Z.min (expiredRequestCount t - 1) 31))
        else Some (Z.min (e - now) (2 ^ 31 - 1))
      else None
  | None => None
  end.

(** ** Operations on a tile *)

(** What can happen to a tile: a call of one of its methods, or the
    assignment to its public [state] field by the source that owns it (no
    method sets [loading], [reloading] or [errored]). *)
Inductive Op : Type :=
| LoadVectorData (data : option WorkerTileResult) (painter : Painter)
| UnloadVectorData
| Upload
| QuerySourceFeatures (result : list GeoJSONFeature) (params : option QueryParams)
| ClearMask
| SetMask (m : Mask)
| SetExpiryData (data : ExpiryData) (now_cc now : Z)
| AssignState (s : TileState).

Definition is_method (op : Op) : bool :=
  match op with AssignState _ => false | _ => true end.

Definition exec (env : Env) (op : Op) (t : Tile) : Tile :=
  match op with
  | LoadVectorData data painter => (loadVectorData env data painter t).1
  | UnloadVectorData => (unloadVectorData t).1
  | Upload => (upload t).1
  | QuerySourceFeatures result params => (querySourceFeatures env result params t).1
  | ClearMask => (clearMask t).1
  | SetMask m => (setMask env m t).1
  | SetExpiryData data now_cc now => setExpiryData data now_cc now t
  | AssignState s => set_state s t
  end.

(** The tile after a sequence of operations, first to last. *)
Definition run (env : Env) (ops : list Op) (t : Tile) : Tile :=
  foldl (fun t op => exec env op t) t ops.

(** §3: a mask equal to the whole-tile sentinel has no mask buffers. *)
Definition whole_tile_unmasked (t : Tile) : bool :=
  negb (deepEqual (mask t) (Some whole_tile))
  || (negb (JS.present (segments t))
      && negb (JS.present (maskedBoundsBuffer t))
      && negb (JS.present (maskedIndexBuffer t))).

(** §3: a tile that has no data holds no buckets. *)
Definition no_data_no_buckets (t : Tile) : bool :=
  hasData t || bool_decide (layers (buckets t) = []).

(** Whether a call creates a GPU object. *)
Definition is_create (c : Call) : bool :=
  match c with
  | TextureCreate _ _ | VertexBufferCreate _ | IndexBufferCreate _ => true
  | _ => false
  end.

(** Whether a call releases a bucket or a texture. *)
Definition is_release (c : Call) : bool :=
  match c with
  | BucketDestroy _ _ | TextureDestroy _ => true
  | _ => false
  end.

(** The bucket objects a list of calls uploads, in call order. *)
Definition uploads_of (calls : list Call) : list nat :=
  omap (fun c => match c with BucketUpload _ obj => Some obj | _ => None end) calls.

(** ** What the tessellation of a mask has to produce *)

(** The last segment ends where the two arrays end: the next vertex and
    the next triangle put into the arrays fall into it. *)
Definition segment_open (a : Tessellation) : Prop :=
  exists s,
    last (segmentVector a) = Some s
    /\ 0 <= vertexLength s /\ 0 <= primitiveLength s
    /\ vertexOffset s + vertexLength s = Z.of_nat (length (maskedBoundsArray a))
    /\ primitiveOffset s + primitiveLength s = Z.of_nat (length (indexArray a)).

(** The [i]-th sub-region, of id [key], in the arrays: its four corner
    vertices at places [4i .. 4i+3], each with its position repeated as
    texture position, the corners being those of the square of side
    [EXTENT >> z] at column [x] and row [y]; and its two triangles at
    places [2i] and [2i+1], in a segment [seg], with indices [offset ..
    offset+3] that, counted from where [seg] starts in the vertex array,
    are the places [4i .. 4i+3] of these four vertices. *)
Definition mask_quad (env : Env) (a : Tessellation) (i : nat) (key : Z) : Prop :=
  let c := fromID env key in
  let e := JS.shr (EXTENT env) (TileCoord.z c) in
  let left := TileCoord.x c * e in
  let top := TileCoord.y c * e in
  let right := left + e in
  let bottom := top + e in
  maskedBoundsArray a !! (4 * i)%nat = Some (left, top, left, top)
  /\ maskedBoundsArray a !! (4 * i + 1)%nat = Some (right, top, right, top)
  /\ maskedBoundsArray a !! (4 * i + 2)%nat = Some (left, bottom, left, bottom)
  /\ maskedBoundsArray a !! (4 * i + 3)%nat = Some (right, bottom, right, bottom)
  /\ exists seg offset,
       seg ∈ segmentVector a
       /\ indexArray a !! (2 * i)%nat = Some (offset, offset + 1, offset + 2)
       /\ indexArray a !! (2 * i + 1)%nat = Some (offset + 1, offset + 2, offset + 3)
       /\ 0 <= offset
       /\ offset + 4 <= vertexLength seg
       /\ vertexOffset seg + offset = Z.of_nat (4 * i)
       /\ primitiveOffset seg <= Z.of_nat (2 * i)
       /\ Z.of_nat (2 * i) + 2 <= primitiveOffset seg + primitiveLength seg.

(** A segment that has only grown: same start, at least as long. *)
Definition segment_grown (s s' : Segment) : Prop :=
  vertexOffset s' = vertexOffset s
  /\ primitiveOffset s' = primitiveOffset s
  /\ vertexLength s <= vertexLength s'
  /\ primitiveLength s <= primitiveLength s'.


(** * The other methods of [Tile] *)

From Stdlib Require QArith Qminmax.

(** ** Fade *)

(** The fields [timeAdded] and [fadeEndTime] (lines 64-65), which only
    [registerFadeDuration] reads or writes.  [None] is [undefined] (the
    field before anything is assigned to it) or [NaN]. *)
Record Fade : Type := { timeAdded : option Z; fadeEndTime : option Z }.

(** [a < b] on numbers that may be [NaN]: false as soon as one is. *)
Definition lt_num (a b : option Z) : bool :=
  match a, b with
  | Some x, Some y => x <? y
  | _, _ => false
  end.

(** [registerFadeDuration], lines 108-115: the fade fields after the call
    and the argument of [animationLoop.set], if it is called.
    [now_check] and [now_set] are the clock readings of lines 110 and
    114. *)
Definition registerFadeDuration (duration now_check now_set : Z) (f : Fade)
    : Fade * option (option Z) :=
  let fadeEnd := (fun added => duration + added) <$> timeAdded f in
  if lt_num fadeEnd (Some now_check) then (f, None)
  else if match fadeEndTime f with
          | Some cur => JS.truthy cur && lt_num fadeEnd (Some cur)
          | None => false
          end
  then (f, None)
  else ({| timeAdded := timeAdded f; fadeEndTime := fadeEnd |},
        Some ((fun e => e - now_set) <$> fadeEnd)).

(** ** The cross-tile symbol index *)

(** Calls on the [CrossTileSymbolIndex] handed to [added] and [removed];
    [symbolInstancesOf] is the bucket object whose [symbolInstances] are
    passed. *)
Inductive SymbolIndexCall : Type :=
| AddTileLayer (layer : string) (c : TileCoord.t) (maxZoom : Z)
    (symbolInstancesOf : nat)
| RemoveTileLayer (layer : string) (c : TileCoord.t) (maxZoom : Z).

(** [this.buckets[id] instanceof SymbolBucket]. *)
Definition is_symbol (objs : list Bucket) (obj : nat) : bool :=
  match objs !! obj with
  | Some {| kind := SymbolBucket |} => true
  | _ => false
  end.

(** The loop of lines 191-196 over the keys [ls]. *)
Fixpoint added_loop (c : TileCoord.t) (maxZoom : Z) (objs : list Bucket)
    (ls : list (string * nat)) : list SymbolIndexCall :=
  match ls with
  | [] => []
  | (id, obj) :: ls' =>
      if is_symbol objs obj
      then AddTileLayer id c maxZoom obj :: added_loop c maxZoom objs ls'
      else added_loop c maxZoom objs ls'
  end.

(** [added], lines 190-197. *)
Definition added (t : Tile) : list SymbolIndexCall :=
  added_loop (coord t) (sourceMaxZoom t) (objects (buckets t)) (layers (buckets t)).

(** The loop of lines 200-205 over the keys [ls]. *)
Fixpoint removed_loop (c : TileCoord.t) (maxZoom : Z) (objs : list Bucket)
    (ls : list (string * nat)) : list SymbolIndexCall :=
  match ls with
  | [] => []
  | (id, obj) :: ls' =>
      if is_symbol objs obj
      then RemoveTileLayer id c maxZoom :: removed_loop c maxZoom objs ls'
      else removed_loop c maxZoom objs ls'
  end.

(** [removed], lines 199-206. *)
Definition removed (t : Tile) : list SymbolIndexCall :=
  removed_loop (coord t) (sourceMaxZoom t) (objects (buckets t)) (layers (buckets t)).

(** The layer a call is about. *)
Definition call_layer (c : SymbolIndexCall) : string :=
  match c with
  | AddTileLayer id _ _ _ => id
  | RemoveTileLayer id _ _ => id
  end.

(** ** Committing a placement *)

(** Calls [commitPlacement] makes, on the symbol buckets and on the
    feature index. *)
Inductive PlacementCall (CollisionIndex FadeTimes Angle : Type) : Type :=
| UpdateOpacities (obj : nat) (collisionFadeTimes : FadeTimes)
| SortFeatures (obj : nat) (angle : Angle)
| SetCollisionIndex (index : FeatureIndex) (collisionIndex : CollisionIndex).

Arguments UpdateOpacities {CollisionIndex FadeTimes Angle} obj collisionFadeTimes.
Arguments SortFeatures {CollisionIndex FadeTimes Angle} obj angle.
Arguments SetCollisionIndex {CollisionIndex FadeTimes Angle} index collisionIndex.

(** The loop of lines 226-232 over the keys [ls]. *)
Fixpoint commit_loop {CollisionIndex FadeTimes Angle : Type}
    (collisionFadeTimes : FadeTimes) (angle : Angle) (objs : list Bucket)
    (ls : list (string * nat))
    : list (PlacementCall CollisionIndex FadeTimes Angle) :=
  match ls with
  | [] => []
  | (_, obj) :: ls' =>
      if is_symbol objs obj
      then UpdateOpacities obj collisionFadeTimes :: SortFeatures obj angle
             :: commit_loop collisionFadeTimes angle objs ls'
      else commit_loop collisionFadeTimes angle objs ls'
  end.

(** [commitPlacement], lines 224-239. *)
Definition commitPlacement {CollisionIndex FadeTimes Angle : Type}
    (collisionIndex : CollisionIndex) (collisionFadeTimes : FadeTimes)
    (angle : Angle) (t : Tile)
    : list (PlacementCall CollisionIndex FadeTimes Angle) :=
  commit_loop collisionFadeTimes angle (objects (buckets t)) (layers (buckets t))
  ++ match featureIndex t with
     | Some index => [SetCollisionIndex index collisionIndex]
     | None => []
     end.

Definition is_handover {CollisionIndex FadeTimes Angle : Type}
    (c : PlacementCall CollisionIndex FadeTimes Angle) : bool :=
  match c with SetCollisionIndex _ _ => true | _ => false end.

(** ** Rendered-feature queries *)

(** A style layer as [queryRenderedFeatures] uses it: its [id] and its
    [queryRadius(bucket)], a number of pixels.  Radii, scale and bearing
    need not be integers; they are rationals ([NaN] and the infinities
    are left out), on which [Math.max] is exact. *)
Record StyleLayer : Type :=
  { sl_id : string; queryRadius : Bucket -> QArith_base.Q }.

(** The loop of lines 275-281 over the keys of [layers], from the radius
    [radius] on. *)
Fixpoint additionalRadius (t : Tile) (ls : list (string * StyleLayer))
    (radius : QArith_base.Q) : QArith_base.Q :=
  match ls with
  | [] => radius
  | (_, layer) :: ls' =>
      match getBucket (sl_id layer) t with
      | Some bucket =>
          additionalRadius t ls' (Qminmax.Qmax radius (queryRadius layer bucket))
      | None => additionalRadius t ls' radius
      end
  end.

(** The first argument of [featureIndex.query], lines 283-293. *)
Record QueryArgs (Geometry Params : Type) : Type :=
  { qa_queryGeometry : Geometry;
    qa_scale : QArith_base.Q;
    qa_tileSize : Z;
    qa_bearing : QArith_base.Q;
    qa_params : Params;
    qa_additionalRadius : QArith_base.Q;
    qa_tileSourceMaxZoom : Z;
    qa_collisionBoxArray : option CollisionBoxArray;
    qa_sourceID : string }.

Arguments qa_queryGeometry {Geometry Params} _.
Arguments qa_scale {Geometry Params} _.
Arguments qa_tileSize {Geometry Params} _.
Arguments qa_bearing {Geometry Params} _.
Arguments qa_params {Geometry Params} _.
Arguments qa_additionalRadius {Geometry Params} _.
Arguments qa_tileSourceMaxZoom {Geometry Params} _.
Arguments qa_collisionBoxArray {Geometry Params} _.
Arguments qa_sourceID {Geometry Params} _.

(** What a rendered-feature query returns: for a layer id, the features
    found with their index. *)
Definition RenderedFeatures : Type := list (string * list (Z * GeoJSONFeature)).

(** [queryRenderedFeatures], lines 265-294; [query] is
    [FeatureIndex.prototype.query]. *)
Definition queryRenderedFeatures {Geometry Params : Type}
    (query : FeatureIndex -> QueryArgs Geometry Params ->
             list (string * StyleLayer) -> RenderedFeatures)
    (layers : list (string * StyleLayer)) (queryGeometry : Geometry)
    (scale : QArith_base.Q) (params : Params) (bearing : QArith_base.Q)
    (sourceID : string) (t : Tile) : RenderedFeatures :=
  match featureIndex t with
  | None => []
  | Some index =>
      query index
        {| qa_queryGeometry := queryGeometry;
           qa_scale := scale;
           qa_tileSize := tileSize t;
           qa_bearing := bearing;
           qa_params := params;
           qa_additionalRadius := additionalRadius t layers (QArith_base.Qmake 0 1);
           qa_tileSourceMaxZoom := sourceMaxZoom t;
           qa_collisionBoxArray := collisionBoxArray t;
           qa_sourceID := sourceID |}
        layers
  end.

(** ** Predicates for the properties of whole runs *)

(** The three mask handles are there together or not at all, and when they
    are, they hold the tessellation of the mask in [mask]. *)
Definition mask_buffers_current (env : Env) (t : Tile) : Prop :=
  (segments t = None /\ maskedBoundsBuffer t = None /\ maskedIndexBuffer t = None)
  \/ exists m,
       mask t = Some m
       /\ deepEqual (Some m) (Some whole_tile) = false
       /\ let a := tessellate env (fst <$> m)
                     {| maskedBoundsArray := []; indexArray := [];
                        segmentVector := prepareSegment env 0 0 0 [] |} in
          segments t = Some (segmentVector a)
          /\ maskedBoundsBuffer t = Some {| vb_array := maskedBoundsArray a |}
          /\ maskedIndexBuffer t = Some {| ib_array := indexArray a |}.

(** Whether a call destroys something. *)
Definition is_destroy (c : Call) : bool :=
  match c with
  | BucketDestroy _ _ | TextureDestroy _ | SegmentsDestroy _
  | VertexBufferDestroy _ | IndexBufferDestroy _ => true
  | _ => false
  end.

(** Every segment holds at most [MAX_VERTEX_ARRAY_LENGTH] vertices, and
    every index of every triangle is below that limit. *)
Definition within_limit (env : Env) (a : Tessellation) : Prop :=
  Forall (fun s => 0 <= vertexLength s <= MAX_VERTEX_ARRAY_LENGTH env) (segmentVector a)
  /\ Forall (fun tri : Z * Z * Z =>
               0 <= tri.1.1 < MAX_VERTEX_ARRAY_LENGTH env
               /\ 0 <= tri.1.2 < MAX_VERTEX_ARRAY_LENGTH env
               /\ 0 <= tri.2 < MAX_VERTEX_ARRAY_LENGTH env) (indexArray a).

(** ** Sample inputs *)

Module Sample.

(** [TileCoord.fromID] as the id packs a coordinate: the zoom in the low
    five bits, then the column and row. *)
Definition coord_of_id (id : Z) : TileCoord.t :=
  let z := id mod 32 in
  let dim := 2 ^ z in
  let xy := (id - z) / 32 in
  let x := xy mod dim in
  TileCoord.mk z x (((xy - x) / dim) mod dim).

(** One bucket object per serialized bucket, shared by its layers. *)
Fixpoint deserialize (n : nat) (input : list SerializedBucket) : Buckets :=
  match input with
  | [] => no_buckets
  | sb :: input' =>
      let rest := deserialize (S n) input' in
      {| objects := {| kind := sb_kind sb; uploaded := false |} :: objects rest;
         layers := ((fun id => (id, n)) <$> layerIds sb) ++ layers rest |}
  end.

Definition road : VectorTileFeature :=
  {| vtf_id := 7; vtf_properties := [("class", "street")] |}.

Definition env : Env :=
  {| EXTENT := 8192;
     fromID := coord_of_id;
     MAX_VERTEX_ARRAY_LENGTH := 65535;
     VectorTile_layers := fun _ => [("road", [road])];
     featureFilter := fun _ _ _ => true;
     deserializeBucket := fun input _ => deserialize 0 input |}.

Definition painter : Painter := {| style := ["water"; "label"] |}.

Definition icons : Image :=
  {| img_width := 1; img_height := 1; img_data := [255; 255; 255; 255] |}.
Definition glyphs : Image :=
  {| img_width := 1; img_height := 1; img_data := [128] |}.

(** A worker result with a fill bucket and a symbol bucket. *)
Definition payload : WorkerTileResult :=
  {| wr_rawTileData := Some [x1a; x02];
     wr_collisionBoxArray := [];
     wr_featureIndex := [];
     wr_buckets := [ {| layerIds := ["water"]; sb_kind := OtherBucket |};
                     {| layerIds := ["label"]; sb_kind := SymbolBucket |} ];
     wr_iconAtlasImage := Some icons;
     wr_glyphAtlasImage := Some glyphs |}.

Definition fresh : Tile := new_Tile (TileCoord.mk 1 0 0) 1 512 14.

(** Loaded with [payload], not yet uploaded. *)
Definition ingested : Tile := (loadVectorData env (Some payload) painter fresh).1.

(** Loaded and uploaded: the tile owns two textures. *)
Definition uploaded_tile : Tile := (upload ingested).1.

(** A reload of [ingested] failed: the source set [reloading], then
    [errored]; the buckets of the earlier load are still there. *)
Definition failed_reload : Tile := set_state errored (set_state reloading ingested).

(** A loaded tile whose recorded expiration is [prior]. *)
Definition expiring (prior count : Z) : Tile :=
  set_expiredRequestCount count
    (set_expirationTime (Some prior) (set_state loaded fresh)).

(** The top-left and bottom-right quarters at zoom 1: ids 1 and 97. *)
Definition quarters : Mask := [(1, true); (97, true)].

Definition masked : Tile := (setMask env quarters fresh).1.

End Sample.


(** ** More sample inputs *)

Module Case.

(** The sample environment with another tile parser. *)
Definition env_parsing (parse : ArrayBuffer -> VtLayers) : Env :=
  {| EXTENT := EXTENT Sample.env;
     fromID := fromID Sample.env;
     MAX_VERTEX_ARRAY_LENGTH := MAX_VERTEX_ARRAY_LENGTH Sample.env;
     VectorTile_layers := parse;
     featureFilter := featureFilter Sample.env;
     deserializeBucket := deserializeBucket Sample.env |}.

(** A parser whose layer [road] has one feature per byte of the tile. *)
Definition env_bytes : Env :=
  env_parsing (fun raw =>
    [("road", (fun b => {| vtf_id := Z.of_N (Byte.to_N b);
                           vtf_properties := [] |}) <$> raw)]).

(** A parser for tiles cut from GeoJSON. *)
Definition env_geojson : Env :=
  env_parsing (fun _ => [("_geojsonTileLayer", [Sample.road])]).

(** A payload with other raw bytes and nothing else. *)
Definition payload_7 : WorkerTileResult :=
  {| wr_rawTileData := Some [x07]; wr_collisionBoxArray := [];
     wr_featureIndex := []; wr_buckets := [];
     wr_iconAtlasImage := None; wr_glyphAtlasImage := None |}.

Definition road_params : option QueryParams :=
  Some {| sourceLayer := Some "road"; filter_spec := None |}.

(** The sample environment with segments of at most [limit] vertices. *)
Definition env_segments (limit : Z) : Env :=
  {| EXTENT := EXTENT Sample.env;
     fromID := fromID Sample.env;
     MAX_VERTEX_ARRAY_LENGTH := limit;
     VectorTile_layers := VectorTile_layers Sample.env;
     featureFilter := featureFilter Sample.env;
     deserializeBucket := deserializeBucket Sample.env |}.

(** The four quarters at zoom 1. *)
Definition four_quarters : Mask := [(1, true); (33, true); (65, true); (97, true)].

(** A tile added at time 1000, no fade registered. *)
Definition unfaded : Fade := {| timeAdded := Some 1000; fadeEndTime := None |}.

(** Style layers with a query radius of 5/2 and 4 pixels, and one for a
    layer the tile has no bucket of. *)
Definition style_layers : list (string * StyleLayer) :=
  [ ("water", {| sl_id := "water"; queryRadius := fun _ => QArith_base.Qmake 5 2 |});
    ("label", {| sl_id := "label"; queryRadius := fun _ => QArith_base.Qmake 4 1 |});
    ("hills", {| sl_id := "hills"; queryRadius := fun _ => QArith_base.Qmake 9 1 |}) ].

End Case.

(** * Properties *)

(** ** Lifecycle predicates *)

(** C1: [hasData] holds exactly in the states loaded, reloading and
    expired; [wasRequested] holds exactly in the states errored, loaded and
    reloading; so [wasRequested] is false on an expired tile. *)
Theorem predicates_by_state (t : Tile) :
  (hasData t = true <->
     state t = loaded \/ state t = reloading \/ state t = expired)
  /\ (wasRequested t = true <->
        state t = errored \/ state t = loaded \/ state t = reloading)
  /\ (state t = expired -> wasRequested t = false).
Proof.
  unfold hasData, wasRequested.
  destruct (state t); compute; intuition congruence.
Qed.

(** ** Release and ingestion of vector data *)

Lemma unloadVectorData_fields (t : Tile) :
  let u := (unloadVectorData t).1 in
  state u = unloaded /\ buckets u = no_buckets
  /\ collisionBoxArray u = None /\ featureIndex u = None
  /\ rawTileData u = rawTileData t /\ vtLayers u = vtLayers t
  /\ iconAtlasTexture u = iconAtlasTexture t
  /\ glyphAtlasTexture u = glyphAtlasTexture t.
Proof. cbn. repeat split. Qed.

Lemma unloadVectorData_calls (t : Tile) :
  (unloadVectorData t).2 =
    ((fun e : string * nat => BucketDestroy e.1 e.2) <$> layers (buckets t))
    ++ destroy_texture (iconAtlasTexture t)
    ++ destroy_texture (glyphAtlasTexture t).
Proof. reflexivity. Qed.

(** Everything the tile holds is released by [unloadVectorData]: each
    bucket under each of its layer ids, and both atlas textures. *)
Lemma unloadVectorData_releases (t : Tile) :
  (forall id r, (id, r) ∈ layers (buckets t) ->
     BucketDestroy id r ∈ (unloadVectorData t).2)
  /\ (forall tex, iconAtlasTexture t = Some tex ->
        TextureDestroy tex ∈ (unloadVectorData t).2)
  /\ (forall tex, glyphAtlasTexture t = Some tex ->
        TextureDestroy tex ∈ (unloadVectorData t).2).
Proof.
  rewrite unloadVectorData_calls. repeat split.
  - intros id r Hin. apply elem_of_app. left.
    apply list_elem_of_fmap. exists (id, r). split; [reflexivity | exact Hin].
  - intros tex ->. cbn. set_solver.
  - intros tex ->. cbn. set_solver.
Qed.

(** What [loadVectorData(null)] does, by whether the tile has data. *)
Lemma loadVectorData_null (env : Env) (painter : Painter) (t : Tile) :
  let r := loadVectorData env None painter t in
  state r.1 = loaded /\ collisionBoxArray r.1 = Some []
  /\ (hasData t = true ->
        r.2 = (unloadVectorData t).2 /\ buckets r.1 = no_buckets)
  /\ (hasData t = false -> r.2 = [] /\ buckets r.1 = buckets t).
Proof.
  unfold loadVectorData. destruct (hasData t) eqn:Hd; cbn; repeat split; congruence.
Qed.

(** C2, as amended: for a tile that has data, or holds no buckets,
    [loadVectorData(null)] ends in state loaded with an empty buckets
    mapping and a present, empty collision-box array; a tile that has data
    is first released as by [unloadVectorData], and for a tile without
    data no release call is made. *)
Theorem loadVectorData_null_loaded (env : Env) (painter : Painter) (t : Tile) :
  no_data_no_buckets t = true ->
  let r := loadVectorData env None painter t in
  state r.1 = loaded
  /\ layers (buckets r.1) = []
  /\ collisionBoxArray r.1 = Some []
  /\ r.2 = (if hasData t then (unloadVectorData t).2 else []).
Proof.
  intros Hinv r.
  destruct (loadVectorData_null env painter t) as (Hs & Hc & Hyes & Hno).
  fold r in Hs, Hc, Hyes, Hno.
  unfold no_data_no_buckets in Hinv.
  destruct (hasData t) eqn:Hd.
  - destruct (Hyes eq_refl) as [Hcalls Hb]. rewrite Hb. auto.
  - destruct (Hno eq_refl) as [Hcalls Hb]. rewrite Hb.
    cbn in Hinv. apply bool_decide_eq_true in Hinv. auto.
Qed.

Lemma loadVectorData_null_loaded_witness :
  no_data_no_buckets Sample.ingested = true
  /\ let r := loadVectorData Sample.env None Sample.painter Sample.ingested in
     state r.1 = loaded
     /\ layers (buckets r.1) = []
     /\ collisionBoxArray r.1 = Some []
     /\ r.2 = (if hasData Sample.ingested
               then (unloadVectorData Sample.ingested).2 else []).
Proof.
  split; [reflexivity |].
  apply (loadVectorData_null_loaded Sample.env Sample.painter Sample.ingested).
  reflexivity.
Defined.

(** C2, as stated, fails on a tile whose state has no data while its
    buckets are still there (a reload that failed): the guard of line 132
    skips the release, and the buckets stay. *)
Lemma loadVectorData_null_keeps_buckets :
  let t := Sample.failed_reload in
  let r := loadVectorData Sample.env None Sample.painter t in
  hasData t = false
  /\ layers (buckets r.1) = [("water", 0%nat); ("label", 1%nat)]
  /\ r.2 = []
  /\ ~ (state r.1 = loaded
     /\ layers (buckets r.1) = []
     /\ is_Some (collisionBoxArray r.1)
     /\ (forall id obj, (id, obj) ∈ layers (buckets t) -> BucketDestroy id obj ∈ r.2)).
Proof.
  cbn. split_and!; try done. intros (_ & Hempty & _). discriminate Hempty.
Qed.

(** The §3 invariant behind the amended C2 holds of a new tile and is kept
    by every method of [Tile]; an assignment to [state] from outside can
    break it. *)
Lemma no_data_no_buckets_new (c : TileCoord.t) (u size maxZoom : Z) :
  no_data_no_buckets (new_Tile c u size maxZoom) = true.
Proof. reflexivity. Qed.

(** *** Frame lemmas: the fields a method leaves alone *)

Ltac by_cases := repeat (case_match; simplify_eq/=); auto; try congruence.

Lemma upload_frame (t : Tile) :
  let u := (upload t).1 in
  state u = state t /\ layers (buckets u) = layers (buckets t)
  /\ mask u = mask t /\ segments u = segments t
  /\ maskedBoundsBuffer u = maskedBoundsBuffer t
  /\ maskedIndexBuffer u = maskedIndexBuffer t.
Proof.
  unfold upload. destruct (upload_buckets _ _) as [objs ups].
  destruct t; cbn. by_cases; repeat split.
Qed.

Lemma loadVectorData_frame (env : Env) data painter (t : Tile) :
  let u := (loadVectorData env data painter t).1 in
  state u = loaded /\ mask u = mask t /\ segments u = segments t
  /\ maskedBoundsBuffer u = maskedBoundsBuffer t
  /\ maskedIndexBuffer u = maskedIndexBuffer t.
Proof.
  unfold loadVectorData, take_atlas_images.
  destruct (hasData t), t; cbn; by_cases; repeat split.
Qed.

Lemma querySourceFeatures_frame (env : Env) result params (t : Tile) :
  let u := (querySourceFeatures env result params t).1 in
  state u = state t /\ buckets u = buckets t
  /\ mask u = mask t /\ segments u = segments t
  /\ maskedBoundsBuffer u = maskedBoundsBuffer t
  /\ maskedIndexBuffer u = maskedIndexBuffer t.
Proof.
  unfold querySourceFeatures. destruct t; cbn. by_cases; repeat split.
Qed.

Lemma setMask_frame (env : Env) (m : Mask) (t : Tile) :
  let u := (setMask env m t).1 in
  state u = state t /\ buckets u = buckets t.
Proof.
  unfold setMask. destruct t; cbn. by_cases.
Qed.

Lemma setExpiryData_frame (data : ExpiryData) (now_cc now : Z) (t : Tile) :
  let u := setExpiryData data now_cc now t in
  (state u = state t \/ state u = expired) /\ buckets u = buckets t
  /\ mask u = mask t /\ segments u = segments t
  /\ maskedBoundsBuffer u = maskedBoundsBuffer t
  /\ maskedIndexBuffer u = maskedIndexBuffer t.
Proof.
  unfold setExpiryData. destruct t; cbn. by_cases; repeat split; auto.
Qed.

Lemma hasData_state (t u : Tile) : state u = state t -> hasData u = hasData t.
Proof. unfold hasData. intros ->. reflexivity. Qed.

Lemma no_data_no_buckets_method (env : Env) (op : Op) (t : Tile) :
  is_method op = true ->
  no_data_no_buckets t = true ->
  no_data_no_buckets (exec env op t) = true.
Proof.
  unfold no_data_no_buckets. intros Hop Hinv. destruct op; cbn [exec]; try discriminate.
  - destruct (loadVectorData_frame env data painter t) as [Hs _].
    unfold hasData. rewrite Hs. reflexivity.
  - reflexivity.
  - destruct (upload_frame t) as (Hs & Hl & _).
    rewrite (hasData_state _ _ Hs), Hl. exact Hinv.
  - destruct (querySourceFeatures_frame env result params t) as (Hs & Hb & _).
    rewrite (hasData_state _ _ Hs), Hb. exact Hinv.
  - exact Hinv.
  - destruct (setMask_frame env m t) as (Hs & Hb).
    rewrite (hasData_state _ _ Hs), Hb. exact Hinv.
  - destruct (setExpiryData_frame data now_cc now t) as ([Hs | Hs] & Hb & _).
    + rewrite (hasData_state _ _ Hs), Hb. exact Hinv.
    + unfold hasData. rewrite Hs. reflexivity.
Qed.

(** X3: along any sequence of calls of [Tile]'s methods a tile that has no
    data holds no buckets. *)
Lemma no_data_no_buckets_run (env : Env) (ops : list Op) (t : Tile) :
  forallb is_method ops = true ->
  no_data_no_buckets t = true ->
  no_data_no_buckets (run env ops t) = true.
Proof.
  unfold run. revert t. induction ops as [| op ops IH]; intros t Hops Hinv; cbn.
  - exact Hinv.
  - cbn in Hops. apply andb_true_iff in Hops as [Hop Hops].
    apply IH; [exact Hops |]. by apply no_data_no_buckets_method.
Qed.

Lemma no_data_no_buckets_assigned :
  no_data_no_buckets (exec Sample.env (AssignState errored) Sample.ingested) = false.
Proof. reflexivity. Qed.

(** *** Releasing twice *)

(** A second [unloadVectorData] right after a first finds no bucket and
    leaves every field as the first call left it, but both atlas textures
    are still referenced, and it calls [destroy] on them again. *)
Lemma unloadVectorData_twice (t : Tile) :
  unloadVectorData (unloadVectorData t).1 =
    ((unloadVectorData t).1,
     destroy_texture (iconAtlasTexture t) ++ destroy_texture (glyphAtlasTexture t)).
Proof. reflexivity. Qed.

Lemma unloadVectorData_twice_no_bucket (t : Tile) (id : string) (obj : nat) :
  BucketDestroy id obj ∉ (unloadVectorData (unloadVectorData t).1).2.
Proof.
  rewrite unloadVectorData_twice. cbn.
  destruct (iconAtlasTexture t), (glyphAtlasTexture t); cbn; intros Hin;
    repeat (apply elem_of_cons in Hin as [Hin | Hin]; [discriminate |]);
    by apply elem_of_nil in Hin.
Qed.

(** Whenever the tile owns an atlas texture, the second call releases it
    again. *)
Lemma unloadVectorData_twice_texture (t : Tile) (tex : Texture) :
  iconAtlasTexture t = Some tex \/ glyphAtlasTexture t = Some tex ->
  TextureDestroy tex ∈ (unloadVectorData (unloadVectorData t).1).2.
Proof.
  rewrite unloadVectorData_twice. intros [-> | ->]; cbn.
  - apply list_elem_of_here.
  - apply elem_of_app. right. apply list_elem_of_here.
Qed.

(** Without atlas textures the second call does nothing at all. *)
Lemma unloadVectorData_twice_no_texture (t : Tile) :
  iconAtlasTexture t = None -> glyphAtlasTexture t = None ->
  unloadVectorData (unloadVectorData t).1 = ((unloadVectorData t).1, []).
Proof. intros Hi Hg. rewrite unloadVectorData_twice, Hi, Hg. reflexivity. Qed.

(** C3 fails on the code: on a tile that was uploaded, so that it owns
    its two atlas textures, the second of two consecutive
    [unloadVectorData] calls releases both textures a second time.  The
    fields are as the first call left them. *)
Theorem unloadVectorData_twice_uploaded :
  let first := unloadVectorData Sample.uploaded_tile in
  let second := unloadVectorData first.1 in
  first.2 =
    [ BucketDestroy "water" 0; BucketDestroy "label" 1;
      TextureDestroy {| tex_image := Sample.icons; tex_format := RGBA |};
      TextureDestroy {| tex_image := Sample.glyphs; tex_format := ALPHA |} ]
  /\ second.2 =
    [ TextureDestroy {| tex_image := Sample.icons; tex_format := RGBA |};
      TextureDestroy {| tex_image := Sample.glyphs; tex_format := ALPHA |} ]
  /\ second.1 = first.1
  /\ existsb is_release second.2 = true.
Proof. repeat split. Qed.

(** ** Expiry *)

Lemma truthy_true (n : Z) : n <> 0 -> JS.truthy n = true.
Proof. unfold JS.truthy. intros H. apply negb_true_iff, Z.eqb_neq, H. Qed.

Lemma expirationTime_set (v : option Z) (t : Tile) :
  expirationTime (set_expirationTime v t) = v.
Proof. reflexivity. Qed.

(** X18: the branch of lines 403-404: an expiration that lies ahead is kept as
    it is, whatever the prior one was. *)
Lemma setExpiryData_fresh (data : ExpiryData) (now_cc now : Z) (t : Tile) (T1 : Z) :
  newExpiration data now_cc t = Some T1 -> now < T1 -> T1 <> 0 ->
  let u := setExpiryData data now_cc now t in
  expirationTime u = Some T1 /\ state u = state t /\ expiredRequestCount u = 0.
Proof.
  intros Hnew Hlt Hnz. unfold setExpiryData. cbv zeta.
  rewrite expirationTime_set, Hnew, (truthy_true _ Hnz).
  replace (T1 >? now) with true by lia.
  cbn. auto.
Qed.

(** C4, as amended: with a prior recorded (non-zero) expiration [T0], a
    new (non-zero) expiration [T1] that is not ahead of the clock, [T1 <=
    now], and [0 < T1 - T0 < 30000], the call ends with [expirationTime =
    now + 30000], leaves [state] as it was (the tile is not marked expired)
    and resets [expiredRequestCount] to 0. *)
Theorem setExpiryData_interpolates (data : ExpiryData) (now_cc now : Z)
    (t : Tile) (T0 T1 : Z) :
  expirationTime t = Some T0 -> T0 <> 0 ->
  newExpiration data now_cc t = Some T1 -> T1 <> 0 ->
  T1 <= now ->
  0 < T1 - T0 < 30000 ->
  let u := setExpiryData data now_cc now t in
  expirationTime u = Some (now + 30000)
  /\ state u = state t
  /\ expiredRequestCount u = 0.
Proof.
  intros Hprior Hp Hnew Hn Hnow Hdelta. unfold setExpiryData. cbv zeta.
  rewrite expirationTime_set, Hnew, Hprior, (truthy_true _ Hn), (truthy_true _ Hp).
  replace (T1 >? now) with false by lia.
  replace (T1 <? T0) with false by lia.
  rewrite (truthy_true (T1 - T0)) by lia.
  cbn. unfold CLOCK_SKEW_RETRY_TIMEOUT.
  rewrite Z.max_r by lia. auto.
Qed.

Lemma setExpiryData_interpolates_witness :
  let t := Sample.expiring 1000 2 in
  let data := {| cacheControl := None; expires := Some (Some 6000) |} in
  (expirationTime t = Some 1000 /\ 1000 <> 0
   /\ newExpiration data 0 t = Some 6000 /\ 6000 <> 0
   /\ 6000 <= 7000 /\ 0 < 6000 - 1000 < 30000)
  /\ (let u := setExpiryData data 0 7000 t in
      expirationTime u = Some (7000 + 30000)
      /\ state u = state t
      /\ expiredRequestCount u = 0).
Proof.
  intros t data. split.
  - repeat split; try reflexivity; lia.
  - apply (setExpiryData_interpolates data 0 7000 t 1000 6000);
      try reflexivity; lia.
Defined.

(** C4, as stated, fails when the new expiration is still ahead of the
    clock: the prior one is 1000, the response gives 2000 and the clock
    reads 1500; the expiration stays 2000 and is not [now + 30000]. *)
Lemma setExpiryData_interpolation_ahead :
  let t := Sample.expiring 1000 0 in
  let data := {| cacheControl := None; expires := Some (Some 2000) |} in
  let now := 1500 in
  expirationTime t = Some 1000
  /\ newExpiration data 0 t = Some 2000
  /\ 0 < 2000 - 1000 < 30000
  /\ expirationTime (setExpiryData data 0 now t) = Some 2000
  /\ expirationTime (setExpiryData data 0 now t) <> Some (now + 30000).
Proof. cbn. repeat split; try lia; discriminate. Qed.

(** C5, as amended: when the new (non-zero) expiration [T1] is not ahead
    of the clock, [T1 <= now], and lies before the prior one, [T1 < T0],
    the tile becomes expired and [expiredRequestCount] grows by one. *)
Theorem setExpiryData_regression (data : ExpiryData) (now_cc now : Z)
    (t : Tile) (T0 T1 : Z) :
  expirationTime t = Some T0 ->
  newExpiration data now_cc t = Some T1 -> T1 <> 0 ->
  T1 <= now ->
  T1 < T0 ->
  let u := setExpiryData data now_cc now t in
  state u = expired
  /\ expiredRequestCount u = expiredRequestCount t + 1.
Proof.
  intros Hprior Hnew Hn Hnow Hlt. unfold setExpiryData. cbv zeta.
  rewrite expirationTime_set, Hnew, Hprior, (truthy_true _ Hn).
  replace (T1 >? now) with false by lia.
  replace (T1 <? T0) with true by lia.
  destruct (JS.truthy T0); cbn; auto.
Qed.

Lemma setExpiryData_regression_witness :
  let t := Sample.expiring 5000 2 in
  let data := {| cacheControl := None; expires := Some (Some 4000) |} in
  (expirationTime t = Some 5000
   /\ newExpiration data 0 t = Some 4000 /\ 4000 <> 0
   /\ 4000 <= 7000 /\ 4000 < 5000)
  /\ (let u := setExpiryData data 0 7000 t in
      state u = expired
      /\ expiredRequestCount u = expiredRequestCount t + 1).
Proof.
  intros t data. split.
  - repeat split; try reflexivity; lia.
  - apply (setExpiryData_regression data 0 7000 t 5000 4000);
      try reflexivity; lia.
Defined.

(** C5, as stated, fails when the earlier expiration is still ahead of
    the clock: prior 2000, new 1500, clock 1000; the tile stays loaded and
    the count is reset, not incremented. *)
Lemma setExpiryData_regression_ahead :
  let t := Sample.expiring 2000 3 in
  let data := {| cacheControl := None; expires := Some (Some 1500) |} in
  let u := setExpiryData data 0 1000 t in
  expirationTime t = Some 2000
  /\ newExpiration data 0 t = Some 1500
  /\ 1500 < 2000
  /\ state u = loaded
  /\ expiredRequestCount u = 0
  /\ ~ (state u = expired /\ expiredRequestCount u = expiredRequestCount t + 1).
Proof. cbn. repeat split; try lia. Qed.

(** *** The timeout until the next check *)

Lemma to_int32_small (n : Z) : - 2 ^ 31 <= n < 2 ^ 31 -> JS.to_int32 n = n.
Proof.
  intros H. unfold JS.to_int32. rewrite Z.mod_small by lia. lia.
Qed.

(** [1 << k] is [2 ^ k] as long as the result fits 31 bits... *)
Lemma shl_1_small (k : Z) : 0 <= k <= 30 -> JS.shl 1 k = 2 ^ k.
Proof.
  intros Hk. unfold JS.shl, JS.to_uint32.
  rewrite (to_int32_small 1) by lia.
  rewrite (Z.mod_small k) by lia.
  change 31 with (Z.ones 5). rewrite Z.land_ones by lia.
  change (2 ^ 5) with 32. rewrite (Z.mod_small k) by lia.
  rewrite Z.shiftl_1_l.
  apply to_int32_small. split.
  - pose proof (Z.pow_nonneg 2 k). lia.
  - apply Z.pow_lt_mono_r; lia.
Qed.

(** ... and wraps to the most negative 32-bit integer at 31. *)
Lemma shl_1_31 : JS.shl 1 31 = - 2 ^ 31.
Proof. reflexivity. Qed.

Lemma getExpiryTimeout_unset (now : Z) (t : Tile) :
  expirationTime t = None -> getExpiryTimeout now t = None.
Proof. unfold getExpiryTimeout. intros ->. reflexivity. Qed.

(** X22: with an expiration set and a count from 1 to 31, the timeout is
    [1000 * 2 ^ (count - 1)] ms, whatever the clock reads. *)
Lemma getExpiryTimeout_backoff (now : Z) (t : Tile) (e : Z) :
  expirationTime t = Some e -> e <> 0 ->
  1 <= expiredRequestCount t <= 31 ->
  getExpiryTimeout now t = Some (1000 * 2 ^ (expiredRequestCount t - 1)).
Proof.
  intros He Hnz Hc. unfold getExpiryTimeout.
  rewrite He, (truthy_true _ Hnz), (truthy_true (expiredRequestCount t)) by lia.
  rewrite Z.min_l by lia. rewrite shl_1_small by lia. reflexivity.
Qed.

Lemma getExpiryTimeout_backoff_wraps (now : Z) (t : Tile) (e : Z) :
  expirationTime t = Some e -> e <> 0 ->
  32 <= expiredRequestCount t ->
  getExpiryTimeout now t = Some (- 2147483648000).
Proof.
  intros He Hnz Hc. unfold getExpiryTimeout.
  rewrite He, (truthy_true _ Hnz), (truthy_true (expiredRequestCount t)) by lia.
  rewrite Z.min_r by lia. rewrite shl_1_31. reflexivity.
Qed.

Lemma getExpiryTimeout_remaining (now : Z) (t : Tile) (e : Z) :
  expirationTime t = Some e -> e <> 0 ->
  expiredRequestCount t = 0 ->
  getExpiryTimeout now t = Some (Z.min (e - now) (2 ^ 31 - 1)).
Proof.
  intros He Hnz Hc. unfold getExpiryTimeout.
  rewrite He, (truthy_true _ Hnz), Hc. reflexivity.
Qed.

Lemma getExpiryTimeout_first_counts (now : Z) :
  getExpiryTimeout now (Sample.expiring 1000 1) = Some 1000
  /\ getExpiryTimeout now (Sample.expiring 1000 2) = Some 2000
  /\ getExpiryTimeout now (Sample.expiring 1000 3) = Some 4000.
Proof. repeat split. Qed.

(** C6 fails on the code: at [expiredRequestCount = 32] the shift count
    is 31, [1 << 31] is the negative [-2147483648], and the timeout
    returned is negative, where the specification has [1000 * 2 ^ 31]
    and a positive value. *)
Theorem getExpiryTimeout_count_32 (now : Z) :
  let t := Sample.expiring 1000 32 in
  getExpiryTimeout now t = Some (- 2147483648000)
  /\ 1000 * 2 ^ Z.min (expiredRequestCount t - 1) 31 = 2147483648000.
Proof. split; reflexivity. Qed.

(** ** Masks *)

Lemma clearMask_calls (t : Tile) :
  (clearMask t).2 =
    destroy_segments (segments t)
    ++ destroy_vertexBuffer (maskedBoundsBuffer t)
    ++ destroy_indexBuffer (maskedIndexBuffer t).
Proof. reflexivity. Qed.

Lemma clearMask_no_create (t : Tile) (c : Call) :
  c ∈ (clearMask t).2 -> is_create c = false.
Proof.
  rewrite clearMask_calls.
  destruct (segments t), (maskedBoundsBuffer t), (maskedIndexBuffer t); cbn;
    intros Hin; repeat (apply elem_of_cons in Hin as [-> | Hin]; [reflexivity |]);
    by apply elem_of_nil in Hin.
Qed.

Lemma setMask_same (env : Env) (m : Mask) (t : Tile) :
  deepEqual (mask t) (Some m) = true -> setMask env m t = (t, []).
Proof. unfold setMask. intros ->. reflexivity. Qed.

Lemma setMask_whole_tile (env : Env) (t : Tile) :
  deepEqual (mask t) (Some whole_tile) = false ->
  setMask env whole_tile t = clearMask (set_mask (Some whole_tile) t).
Proof. unfold setMask. intros ->. reflexivity. Qed.

Lemma whole_tile_unmasked_true (t : Tile) :
  whole_tile_unmasked t = true ->
  deepEqual (mask t) (Some whole_tile) = true ->
  segments t = None /\ maskedBoundsBuffer t = None /\ maskedIndexBuffer t = None.
Proof.
  unfold whole_tile_unmasked. intros Hinv Heq. rewrite Heq in Hinv. cbn in Hinv.
  destruct (segments t), (maskedBoundsBuffer t), (maskedIndexBuffer t);
    cbn in Hinv; try discriminate; auto.
Qed.

(** With the sentinel, under the mask invariant: whatever mask segments
    and buffers the tile held are destroyed, none is allocated, and the
    three fields end unset. *)
Lemma setMask_whole_tile_clears (env : Env) (t : Tile) :
  whole_tile_unmasked t = true ->
  let r := setMask env whole_tile t in
  segments r.1 = None
  /\ maskedBoundsBuffer r.1 = None
  /\ maskedIndexBuffer r.1 = None
  /\ r.2 = destroy_segments (segments t)
           ++ destroy_vertexBuffer (maskedBoundsBuffer t)
           ++ destroy_indexBuffer (maskedIndexBuffer t)
  /\ forall c, c ∈ r.2 -> is_create c = false.
Proof.
  intros Hinv.
  destruct (deepEqual (mask t) (Some whole_tile)) eqn:Heq.
  - destruct (whole_tile_unmasked_true t Hinv Heq) as (Hs & Hv & Hi).
    rewrite (setMask_same env _ t Heq), Hs, Hv, Hi. cbn.
    split_and!; try done. intros c Hin. by apply elem_of_nil in Hin.
  - rewrite (setMask_whole_tile env t Heq). cbn -[clearMask].
    split_and!; try done. intros c. apply (clearMask_no_create (set_mask _ t)).
Qed.



(** The mask invariant holds of a new tile and is kept by every
    operation, assignments to [state] included. *)
Lemma whole_tile_unmasked_new (c : TileCoord.t) (u size maxZoom : Z) :
  whole_tile_unmasked (new_Tile c u size maxZoom) = true.
Proof. reflexivity. Qed.

Lemma whole_tile_unmasked_frame (t u : Tile) :
  mask u = mask t -> segments u = segments t ->
  maskedBoundsBuffer u = maskedBoundsBuffer t ->
  maskedIndexBuffer u = maskedIndexBuffer t ->
  whole_tile_unmasked u = whole_tile_unmasked t.
Proof. unfold whole_tile_unmasked. by intros -> -> -> ->. Qed.

Lemma whole_tile_unmasked_setMask (env : Env) (m : Mask) (t : Tile) :
  whole_tile_unmasked t = true ->
  whole_tile_unmasked (setMask env m t).1 = true.
Proof.
  intros Hinv. unfold setMask.
  destruct (deepEqual (mask t) (Some m)) eqn:Hsame; [exact Hinv |].
  destruct (deepEqual (Some m) (Some whole_tile)) eqn:Hwhole; cbn -[deepEqual].
  - unfold whole_tile_unmasked. cbn -[deepEqual]. apply orb_true_r.
  - unfold whole_tile_unmasked. cbn -[deepEqual]. rewrite Hwhole. reflexivity.
Qed.

Lemma whole_tile_unmasked_exec (env : Env) (op : Op) (t : Tile) :
  whole_tile_unmasked t = true ->
  whole_tile_unmasked (exec env op t) = true.
Proof.
  intros Hinv. destruct op; cbn [exec].
  - destruct (loadVectorData_frame env data painter t) as (_ & Hm & Hs & Hv & Hi).
    by rewrite (whole_tile_unmasked_frame _ _ Hm Hs Hv Hi).
  - exact Hinv.
  - destruct (upload_frame t) as (_ & _ & Hm & Hs & Hv & Hi).
    by rewrite (whole_tile_unmasked_frame _ _ Hm Hs Hv Hi).
  - destruct (querySourceFeatures_frame env result params t) as (_ & _ & Hm & Hs & Hv & Hi).
    by rewrite (whole_tile_unmasked_frame _ _ Hm Hs Hv Hi).
  - unfold whole_tile_unmasked. cbn -[deepEqual]. apply orb_true_r.
  - by apply whole_tile_unmasked_setMask.
  - destruct (setExpiryData_frame data now_cc now t) as (_ & _ & Hm & Hs & Hv & Hi).
    by rewrite (whole_tile_unmasked_frame _ _ Hm Hs Hv Hi).
  - exact Hinv.
Qed.

Lemma whole_tile_unmasked_run (env : Env) (ops : list Op) (t : Tile) :
  whole_tile_unmasked t = true ->
  whole_tile_unmasked (run env ops t) = true.
Proof.
  unfold run. revert t. induction ops as [| op ops IH]; intros t Hinv; cbn.
  - exact Hinv.
  - apply IH, whole_tile_unmasked_exec, Hinv.
Qed.

(** So the invariant is no restriction on the tiles the program builds:
    on the tile any sequence of operations makes of a new tile, [setMask]
    with the sentinel leaves the mask segments and buffers unset. *)
Lemma setMask_whole_tile_reachable (env : Env) (ops : list Op)
    (c : TileCoord.t) (u size maxZoom : Z) :
  let t := run env ops (new_Tile c u size maxZoom) in
  let r := setMask env whole_tile t in
  segments r.1 = None
  /\ maskedBoundsBuffer r.1 = None
  /\ maskedIndexBuffer r.1 = None
  /\ r.2 = (clearMask t).2.
Proof.
  intros t r.
  destruct (setMask_whole_tile_clears env t) as (Hs & Hv & Hi & Hcalls & _).
  { apply whole_tile_unmasked_run, whole_tile_unmasked_new. }
  by rewrite clearMask_calls.
Qed.

(** ** Upload *)

Section UploadBuckets.

Implicit Types (ls : list (string * nat)) (objs : list Bucket).

Lemma upload_buckets_length ls objs :
  length (upload_buckets ls objs).1 = length objs.
Proof.
  revert objs. induction ls as [| [id r] ls IH]; intros objs; cbn; [done |].
  destruct (objs !! r) as [b |] eqn:Hb; [| apply IH].
  destruct (uploaded b); [apply IH |].
  specialize (IH (<[r := mark_uploaded b]> objs)).
  destruct (upload_buckets ls _) as [objs' calls]. cbn in *.
  by rewrite IH, length_insert.
Qed.

(** A flag that is set stays set, on the same bucket. *)
Lemma upload_buckets_keeps_flagged ls objs obj b :
  objs !! obj = Some b -> uploaded b = true ->
  (upload_buckets ls objs).1 !! obj = Some b.
Proof.
  revert objs. induction ls as [| [id r] ls IH]; intros objs Hb Hup; cbn; [done |].
  destruct (objs !! r) as [b0 |] eqn:Hb0; [| by apply IH].
  destruct (uploaded b0) eqn:Hup0; [by apply IH |].
  assert (r <> obj) as Hne by (intros ->; congruence).
  specialize (IH (<[r := mark_uploaded b0]> objs)).
  destruct (upload_buckets ls _) as [objs' calls]. cbn in *.
  apply IH; [| done]. by rewrite list_lookup_insert_ne.
Qed.

(** A bucket whose flag is set is not uploaded. *)
Lemma upload_buckets_skips_flagged ls objs obj b id :
  objs !! obj = Some b -> uploaded b = true ->
  BucketUpload id obj ∉ (upload_buckets ls objs).2.
Proof.
  revert objs. induction ls as [| [id0 r] ls IH]; intros objs Hb Hup; cbn.
  { apply not_elem_of_nil. }
  destruct (objs !! r) as [b0 |] eqn:Hb0; [| by apply IH].
  destruct (uploaded b0) eqn:Hup0; [by apply IH |].
  assert (r <> obj) as Hne by (intros ->; congruence).
  specialize (IH (<[r := mark_uploaded b0]> objs)).
  destruct (upload_buckets ls _) as [objs' calls]. cbn in *.
  intros [Heq | Hin]%elem_of_cons; [congruence |].
  revert Hin. apply IH; [| done]. by rewrite list_lookup_insert_ne.
Qed.

(** A bucket uploaded by the loop has its flag set when the loop ends. *)
Lemma upload_buckets_flags_uploaded ls objs obj id :
  BucketUpload id obj ∈ (upload_buckets ls objs).2 ->
  exists b, (upload_buckets ls objs).1 !! obj = Some b /\ uploaded b = true.
Proof.
  revert objs. induction ls as [| [id0 r] ls IH]; intros objs; cbn.
  { by intros ?%elem_of_nil. }
  destruct (objs !! r) as [b0 |] eqn:Hb0; [| by apply IH].
  destruct (uploaded b0) eqn:Hup0; [by apply IH |].
  pose proof (upload_buckets_keeps_flagged ls (<[r := mark_uploaded b0]> objs)
                r (mark_uploaded b0)) as Hkeep.
  specialize (IH (<[r := mark_uploaded b0]> objs)).
  destruct (upload_buckets ls _) as [objs' calls]. cbn in *.
  intros [Heq | Hin]%elem_of_cons; [| by apply IH].
  injection Heq as -> ->. exists (mark_uploaded b0). split; [| done].
  apply Hkeep; [| done].
  apply list_lookup_insert_eq. by eapply lookup_lt_Some.
Qed.

(** When the loop ends, the bucket of every key has its flag set. *)
Lemma upload_buckets_flags_all ls objs id obj :
  (id, obj) ∈ ls -> is_Some (objs !! obj) ->
  exists b, (upload_buckets ls objs).1 !! obj = Some b /\ uploaded b = true.
Proof.
  revert objs. induction ls as [| [id0 r] ls IH]; intros objs Hin Hsome; cbn.
  { by apply elem_of_nil in Hin. }
  apply elem_of_cons in Hin as [Heq | Hin].
  - injection Heq as <- <-. destruct Hsome as [b Hb]. rewrite Hb.
    destruct (uploaded b) eqn:Hup.
    + exists b. split; [| done]. by apply upload_buckets_keeps_flagged.
    + pose proof (upload_buckets_keeps_flagged ls (<[obj := mark_uploaded b]> objs)
                    obj (mark_uploaded b)) as Hkeep.
      destruct (upload_buckets ls _) as [objs' calls]. cbn in *.
      exists (mark_uploaded b). split; [| done]. apply Hkeep; [| done].
      apply list_lookup_insert_eq. by eapply lookup_lt_Some.
  - destruct (objs !! r) as [b0 |] eqn:Hb0; [| by apply IH].
    destruct (uploaded b0) eqn:Hup0; [by apply IH |].
    specialize (IH (<[r := mark_uploaded b0]> objs) Hin).
    destruct (upload_buckets ls _) as [objs' calls]. cbn in *.
    apply IH. apply lookup_lt_is_Some. rewrite length_insert.
    by apply lookup_lt_is_Some.
Qed.

(** On buckets that are all flagged the loop does nothing. *)
Lemma upload_buckets_all_flagged ls objs :
  (forall id obj b, (id, obj) ∈ ls -> objs !! obj = Some b -> uploaded b = true) ->
  upload_buckets ls objs = (objs, []).
Proof.
  induction ls as [| [id r] ls IH]; intros Hall; cbn; [done |].
  assert (upload_buckets ls objs = (objs, [])) as Htl.
  { apply IH. intros id' obj b Hin. apply (Hall id'), elem_of_cons. by right. }
  destruct (objs !! r) as [b |] eqn:Hb; [| done].
  rewrite (Hall id r b); [done | apply elem_of_cons; by left | done].
Qed.

Lemma upload_buckets_twice ls objs :
  upload_buckets ls (upload_buckets ls objs).1 = ((upload_buckets ls objs).1, []).
Proof.
  apply upload_buckets_all_flagged. intros id obj b Hin Hb.
  destruct (upload_buckets_flags_all ls objs id obj Hin) as (b' & Hb' & Hup).
  - apply lookup_lt_is_Some. rewrite <- (upload_buckets_length ls objs).
    by eapply lookup_lt_Some.
  - congruence.
Qed.

Lemma elem_of_uploads_of (calls : list Call) obj :
  obj ∈ uploads_of calls <-> exists id, BucketUpload id obj ∈ calls.
Proof.
  unfold uploads_of. rewrite list_elem_of_omap. split.
  - intros (c & Hin & Hc). destruct c; try discriminate.
    injection Hc as ->. by eexists.
  - intros (id & Hin). by exists (BucketUpload id obj).
Qed.

(** No bucket object is uploaded twice in one pass, under however many
    layer ids it is listed. *)
Lemma upload_buckets_once ls objs : NoDup (uploads_of (upload_buckets ls objs).2).
Proof.
  revert objs. induction ls as [| [id r] ls IH]; intros objs; cbn.
  { apply NoDup_nil_2. }
  destruct (objs !! r) as [b |] eqn:Hb; [| apply IH].
  destruct (uploaded b) eqn:Hup; [apply IH |].
  pose proof (upload_buckets_skips_flagged ls (<[r := mark_uploaded b]> objs)
                r (mark_uploaded b)) as Hskip.
  specialize (IH (<[r := mark_uploaded b]> objs)).
  destruct (upload_buckets ls _) as [objs' calls]. cbn in *.
  apply NoDup_cons_2; [| done].
  intros (id' & Hin)%elem_of_uploads_of. revert Hin. apply Hskip; [| done].
  apply list_lookup_insert_eq. by eapply lookup_lt_Some.
Qed.

Lemma upload_buckets_no_create ls objs :
  List.filter is_create (upload_buckets ls objs).2 = [].
Proof.
  revert objs. induction ls as [| [id r] ls IH]; intros objs; cbn; [done |].
  destruct (objs !! r) as [b |]; [| apply IH].
  destruct (uploaded b); [apply IH |].
  specialize (IH (<[r := mark_uploaded b]> objs)).
  destruct (upload_buckets ls _) as [objs' calls]. cbn in *. done.
Qed.

End UploadBuckets.

Lemma BucketUpload_in_app (id : string) (obj : nat) (ups cs : list Call) :
  Forall (fun c => is_create c = true) cs ->
  BucketUpload id obj ∈ ups ++ cs -> BucketUpload id obj ∈ ups.
Proof.
  intros Hcs [Hin | Hin]%elem_of_app; [done |].
  rewrite Forall_forall in Hcs. by apply Hcs in Hin.
Qed.

(** C9: a second [upload] right after a first makes no call and changes
    no field, so it uploads no bucket and creates no texture.  In the
    first call a bucket whose flag is set is skipped, a bucket that is
    uploaded has its flag set afterwards, and none is uploaded twice; each
    atlas image present becomes the tile's texture through exactly one
    [TextureCreate], and both image fields are cleared. *)
Theorem upload_idempotent (t : Tile) :
  let first := upload t in
  upload first.1 = (first.1, [])
  /\ (forall obj b id,
        objects (buckets t) !! obj = Some b -> uploaded b = true ->
        BucketUpload id obj ∉ first.2)
  /\ (forall id obj,
        BucketUpload id obj ∈ first.2 ->
        exists b, objects (buckets first.1) !! obj = Some b /\ uploaded b = true)
  /\ NoDup (uploads_of first.2)
  /\ iconAtlasImage first.1 = None
  /\ glyphAtlasImage first.1 = None
  /\ (forall img, iconAtlasImage t = Some img ->
        iconAtlasTexture first.1 = Some {| tex_image := img; tex_format := RGBA |})
  /\ (forall img, glyphAtlasImage t = Some img ->
        glyphAtlasTexture first.1 = Some {| tex_image := img; tex_format := ALPHA |})
  /\ List.filter is_create first.2 =
       from_option (fun img => [TextureCreate img RGBA]) [] (iconAtlasImage t)
       ++ from_option (fun img => [TextureCreate img ALPHA]) [] (glyphAtlasImage t).
Proof.
  unfold upload.
  pose proof (upload_buckets_twice (layers (buckets t)) (objects (buckets t))) as Htwice.
  pose proof (upload_buckets_skips_flagged (layers (buckets t)) (objects (buckets t))) as Hskip.
  pose proof (upload_buckets_flags_uploaded (layers (buckets t)) (objects (buckets t))) as Hflag.
  pose proof (upload_buckets_once (layers (buckets t)) (objects (buckets t))) as Honce.
  pose proof (upload_buckets_no_create (layers (buckets t)) (objects (buckets t))) as Hnc.
  destruct (upload_buckets (layers (buckets t)) (objects (buckets t)))
    as [objs ups]. cbn [fst snd] in *.
  destruct t as [? ? ? ? ? bs icon ? glyph ? ? ? ? ? ? ? ? ? ? ? ?].
  destruct icon as [icon |], glyph as [glyph |]; cbn in *; rewrite Htwice; cbn;
    (split_and!;
     [ done
     | intros obj b id Hb Hup Hin; apply (Hskip obj b id Hb Hup);
       (eapply BucketUpload_in_app; [| exact Hin]; repeat constructor)
     | intros id obj Hin; apply (Hflag obj id);
       (eapply BucketUpload_in_app; [| exact Hin]; repeat constructor)
     | unfold uploads_of in *; rewrite !omap_app; cbn; by rewrite app_nil_r
     | done | done
     | intros img Himg; by simplify_eq
     | intros img Himg; by simplify_eq
     | rewrite !List.filter_app, Hnc; done ]).
Qed.

(** The scenario of §8: a fill layer and a symbol layer are ingested,
    [getBucket] finds a bucket of the right kind for each, and after
    [upload] both are flagged. *)
Lemma getBucket_sample :
  getBucket "water" Sample.ingested = Some {| kind := OtherBucket; uploaded := false |}
  /\ getBucket "label" Sample.ingested = Some {| kind := SymbolBucket; uploaded := false |}
  /\ getBucket "road" Sample.ingested = None
  /\ getBucket "water" Sample.uploaded_tile = Some {| kind := OtherBucket; uploaded := true |}
  /\ getBucket "label" Sample.uploaded_tile = Some {| kind := SymbolBucket; uploaded := true |}
  /\ (upload Sample.ingested).2 =
       [ BucketUpload "water" 0; BucketUpload "label" 1;
         TextureCreate Sample.icons RGBA; TextureCreate Sample.glyphs ALPHA ]
  /\ (upload Sample.uploaded_tile).2 = [].
Proof. repeat split. Qed.

(** ** Source-feature queries after a release *)

(** [unloadVectorData] leaves the raw bytes and the parsed layers in
    place, so a query answers as it did before the release. *)
Lemma querySourceFeatures_unload (env : Env) (result : list GeoJSONFeature)
    (params : option QueryParams) (t : Tile) :
  (querySourceFeatures env result params (unloadVectorData t).1).2
  = (querySourceFeatures env result params t).2.
Proof.
  unfold querySourceFeatures. destruct t; cbn. by_cases.
Qed.

Lemma loadVectorData_raw (env : Env) (d : WorkerTileResult) (painter : Painter)
    (t : Tile) (raw : ArrayBuffer) :
  wr_rawTileData d = Some raw ->
  let u := (loadVectorData env (Some d) painter t).1 in
  rawTileData u = Some raw /\ vtLayers u = vtLayers t /\ coord u = coord t.
Proof.
  intros Hraw. unfold loadVectorData, take_atlas_images. rewrite Hraw.
  destruct (hasData t), t; cbn; by_cases.
Qed.

Lemma querySourceFeatures_result (env : Env) (result : list GeoJSONFeature)
    (params : option QueryParams) (t : Tile) (raw : ArrayBuffer)
    (layer : VectorTileLayer) :
  rawTileData t = Some raw ->
  select_layer params (default (VectorTile_layers env raw) (vtLayers t)) = Some layer ->
  (querySourceFeatures env result params t).2 =
    result ++ (geojsonFeature (coord t)
                 <$> List.filter (featureFilter env (params ≫= filter_spec)
                                    (TileCoord.z (coord t))) layer).
Proof.
  intros Hraw Hlayer. unfold querySourceFeatures. rewrite Hraw.
  destruct (vtLayers t) as [parsed |] eqn:Hvt; cbn in *.
  - rewrite Hvt, Hlayer. reflexivity.
  - rewrite Hlayer. reflexivity.
Qed.



(** On the sample tile the query after the release is no no-op: the road
    of the old payload comes back. *)
Lemma querySourceFeatures_sample_release :
  let params := Some {| sourceLayer := Some "road"; filter_spec := None |} in
  (querySourceFeatures Sample.env [] params
     (unloadVectorData Sample.ingested).1).2
  = [geojsonFeature (TileCoord.mk 1 0 0) Sample.road].
Proof. reflexivity. Qed.

(** ** Mask tessellation *)

Section Tessellate.

Context (env : Env).

Lemma last_alter_last {A : Type} (f : A -> A) (l : list A) :
  last (alter_last f l) = f <$> last l.
Proof.
  induction l as [| a [| b l] IH]; [done | done |].
  change (alter_last f (a :: b :: l)) with (a :: alter_last f (b :: l)).
  rewrite last_cons_cons.
  destruct (alter_last f (b :: l)) as [| c l'] eqn:Hl.
  - cbn in Hl. destruct l; discriminate.
  - rewrite last_cons_cons, <- IH. reflexivity.
Qed.

Lemma elem_of_alter_last {A : Type} (f : A -> A) (l : list A) (a : A) :
  a ∈ l -> a ∈ alter_last f l \/ f a ∈ alter_last f l.
Proof.
  induction l as [| b [| c l] IH]; intros Hin.
  - by apply elem_of_nil in Hin.
  - apply list_elem_of_singleton in Hin as ->. right. cbn. apply list_elem_of_here.
  - change (alter_last f (b :: c :: l)) with (b :: alter_last f (c :: l)).
    apply elem_of_cons in Hin as [-> | Hin].
    + left. apply list_elem_of_here.
    + destruct (IH Hin); [left | right]; by apply list_elem_of_further.
Qed.

Lemma prepareSegment_keeps n vlen ilen (segs : SegmentVector) (s : Segment) :
  s ∈ segs -> s ∈ prepareSegment env n vlen ilen segs.
Proof.
  intros Hin. unfold prepareSegment.
  destruct (last segs) as [s0 |]; [destruct (_ >? _) |];
    try done; apply elem_of_app; by left.
Qed.

(** The segment handed out ends where the arrays end. *)
Lemma prepareSegment_open n (a : Tessellation) :
  segment_open a ->
  segment_open
    {| maskedBoundsArray := maskedBoundsArray a; indexArray := indexArray a;
       segmentVector :=
         prepareSegment env n (Z.of_nat (length (maskedBoundsArray a)))
           (Z.of_nat (length (indexArray a))) (segmentVector a) |}.
Proof.
  intros (s & Hlast & Hs). unfold segment_open, prepareSegment. cbn.
  rewrite Hlast. destruct (_ >? _).
  - rewrite last_snoc. eexists. split; [done |]. cbn. lia.
  - exists s. by rewrite Hlast.
Qed.


Lemma tessellate_key_lengths key (a : Tessellation) :
  length (maskedBoundsArray (tessellate_key env key a))
  = (length (maskedBoundsArray a) + 4)%nat
  /\ length (indexArray (tessellate_key env key a))
     = (length (indexArray a) + 2)%nat.
Proof. cbn. by rewrite !length_app. Qed.

Lemma tessellate_key_open key (a : Tessellation) :
  segment_open a -> segment_open (tessellate_key env key a).
Proof.
  intros Hopen. destruct (prepareSegment_open 4 a Hopen) as (s & Hlast & Hs).
  cbn in Hlast, Hs. unfold segment_open. cbn.
  rewrite last_alter_last, Hlast. cbn. eexists. split; [done |]. cbn.
  rewrite !length_app. cbn. lia.
Qed.

(** The iteration for [key] puts its quad at the end of the arrays. *)
Lemma tessellate_key_quad key (a : Tessellation) (n : nat) :
  segment_open a ->
  length (maskedBoundsArray a) = (4 * n)%nat ->
  length (indexArray a) = (2 * n)%nat ->
  mask_quad env (tessellate_key env key a) n key.
Proof.
  intros Hopen Hv Hi.
  destruct (prepareSegment_open 4 a Hopen) as (s & Hlast & Hs0 & Hs1 & Hsv & Hsi).
  cbn in Hlast, Hs0, Hs1, Hsv, Hsi. unfold mask_quad. cbn. rewrite Hlast.
  split_and!.
  - rewrite lookup_app_r by lia. by replace (4 * n - _)%nat with 0%nat by lia.
  - rewrite lookup_app_r by lia. by replace (4 * n + 1 - _)%nat with 1%nat by lia.
  - rewrite lookup_app_r by lia. by replace (4 * n + 2 - _)%nat with 2%nat by lia.
  - rewrite lookup_app_r by lia. by replace (4 * n + 3 - _)%nat with 3%nat by lia.
  - eexists _, (vertexLength s). split_and!.
    + apply last_Some_elem_of. rewrite last_alter_last, Hlast. reflexivity.
    + rewrite lookup_app_r by lia. by replace (2 * n - _)%nat with 0%nat by lia.
    + rewrite lookup_app_r by lia. by replace (2 * n + 1 - _)%nat with 1%nat by lia.
    + done.
    + cbn. lia.
    + cbn. lia.
    + cbn. lia.
    + cbn. lia.
Qed.

Lemma tessellate_key_grows key (a : Tessellation) (seg : Segment) :
  seg ∈ segmentVector a ->
  exists seg', seg' ∈ segmentVector (tessellate_key env key a)
               /\ segment_grown seg seg'.
Proof.
  intros Hin. cbn.
  apply (prepareSegment_keeps 4 (Z.of_nat (length (maskedBoundsArray a)))
           (Z.of_nat (length (indexArray a)))) in Hin.
  match goal with |- context [alter_last ?f _] =>
    apply (elem_of_alter_last f) in Hin as [Hin | Hin] end;
    eexists; (split; [exact Hin |]); unfold segment_grown; cbn; lia.
Qed.

(** Later iterations leave the quads of earlier ones as they are. *)
Lemma tessellate_key_keeps key (a : Tessellation) (i : nat) (k : Z) :
  mask_quad env a i k -> mask_quad env (tessellate_key env key a) i k.
Proof.
  intros (H0 & H1 & H2 & H3 & seg & offset & Hin & Ht0 & Ht1 & Hoff & Hlen & Hv & Hp0 & Hp1).
  destruct (tessellate_key_grows key a seg Hin) as (seg' & Hin' & Hvo & Hpo & Hvl & Hpl).
  unfold mask_quad. cbn -[tessellate_key].
  split_and!; try (cbn; by apply lookup_app_l_Some).
  exists seg', offset.
  split_and!; try done; try (cbn; by apply lookup_app_l_Some); lia.
Qed.

Lemma tessellate_spec (keys : list Z) (a : Tessellation) (n : nat) :
  segment_open a ->
  length (maskedBoundsArray a) = (4 * n)%nat ->
  length (indexArray a) = (2 * n)%nat ->
  segment_open (tessellate env keys a)
  /\ length (maskedBoundsArray (tessellate env keys a)) = (4 * (n + length keys))%nat
  /\ length (indexArray (tessellate env keys a)) = (2 * (n + length keys))%nat
  /\ (forall i key, keys !! i = Some key ->
        mask_quad env (tessellate env keys a) (n + i) key)
  /\ (forall i key, mask_quad env a i key ->
        mask_quad env (tessellate env keys a) i key).
Proof.
  revert a n. induction keys as [| key keys IH]; intros a n Hopen Hv Hi.
  - cbn. split_and!; try done; lia.
  - destruct (tessellate_key_lengths key a) as [Hv' Hi'].
    destruct (IH (tessellate_key env key a) (S n)) as (Ho & Hlv & Hli & Hnew & Hold).
    { by apply tessellate_key_open. }
    { lia. }
    { lia. }
    change (tessellate env (key :: keys) a)
      with (tessellate env keys (tessellate_key env key a)).
    split_and!.
    + done.
    + rewrite Hlv. cbn [length]. lia.
    + rewrite Hli. cbn [length]. lia.
    + intros [| i] k Hk.
      * injection Hk as <-. rewrite Nat.add_0_r.
        apply Hold. by apply tessellate_key_quad.
      * replace (n + S i)%nat with (S n + i)%nat by lia. by apply Hnew.
    + intros i k Hq. by apply Hold, tessellate_key_keeps.
Qed.

End Tessellate.

Lemma tessellation_start_open (env : Env) :
  segment_open
    {| maskedBoundsArray := []; indexArray := [];
       segmentVector := prepareSegment env 0 0 0 [] |}.
Proof.
  unfold segment_open, prepareSegment. cbn. eexists. split; [done |]. cbn. lia.
Qed.

(** What [setMask] does with a mask that is neither the applied one nor
    the sentinel. *)
Lemma setMask_tessellated (env : Env) (m : Mask) (t : Tile) :
  deepEqual (mask t) (Some m) = false ->
  deepEqual (Some m) (Some whole_tile) = false ->
  let a := tessellate env (fst <$> m)
             {| maskedBoundsArray := []; indexArray := [];
                segmentVector := prepareSegment env 0 0 0 [] |} in
  let r := setMask env m t in
  mask r.1 = Some m
  /\ segments r.1 = Some (segmentVector a)
  /\ maskedBoundsBuffer r.1 = Some {| vb_array := maskedBoundsArray a |}
  /\ maskedIndexBuffer r.1 = Some {| ib_array := indexArray a |}
  /\ r.2 = (clearMask t).2
           ++ [VertexBufferCreate (maskedBoundsArray a);
               IndexBufferCreate (indexArray a)].
Proof.
  intros Hdiff Hpart. unfold setMask. rewrite Hdiff. cbn -[deepEqual tessellate].
  rewrite Hpart. cbn -[tessellate]. by split_and!.
Qed.

(** C8: when [setMask] is given a mask that is not the sentinel (and not
    the mask already applied, for which the call does nothing), the vertex
    and index arrays it uploads hold, for the [i]-th id of the mask,
    exactly four vertices and two triangles: the vertices are the corners
    of the square of side [EXTENT >> z] at the sub-region's column and row,
    each with its position repeated as texture position; the triangles are
    [(offset, offset+1, offset+2)] and [(offset+1, offset+2, offset+3)],
    where [offset] is the number of vertices its segment held before this
    sub-region, so that, counted from the start of the segment, the
    indices are the places of these four vertices. *)
Theorem setMask_tessellates (env : Env) (m : Mask) (t : Tile) :
  deepEqual (mask t) (Some m) = false ->
  deepEqual (Some m) (Some whole_tile) = false ->
  let r := setMask env m t in
  exists a : Tessellation,
    segments r.1 = Some (segmentVector a)
    /\ maskedBoundsBuffer r.1 = Some {| vb_array := maskedBoundsArray a |}
    /\ maskedIndexBuffer r.1 = Some {| ib_array := indexArray a |}
    /\ VertexBufferCreate (maskedBoundsArray a) ∈ r.2
    /\ IndexBufferCreate (indexArray a) ∈ r.2
    /\ length (maskedBoundsArray a) = (4 * length m)%nat
    /\ length (indexArray a) = (2 * length m)%nat
    /\ forall i key v, m !! i = Some (key, v) -> mask_quad env a i key.
Proof.
  intros Hdiff Hpart r.
  destruct (setMask_tessellated env m t Hdiff Hpart) as (_ & Hs & Hv & Hi & Hcalls).
  fold r in Hs, Hv, Hi, Hcalls.
  destruct (tessellate_spec env (fst <$> m) _ 0 (tessellation_start_open env))
    as (_ & Hlv & Hli & Hquad & _); [done | done |].
  rewrite length_fmap in Hlv, Hli.
  eexists. split_and!; try done.
  - rewrite Hcalls. set_solver.
  - rewrite Hcalls. set_solver.
  - intros i key v Hm. apply (Hquad i key).
    by rewrite list_lookup_fmap, Hm.
Qed.

Lemma setMask_tessellates_witness :
  let r := setMask Sample.env Sample.quarters Sample.fresh in
  deepEqual (mask Sample.fresh) (Some Sample.quarters) = false
  /\ deepEqual (Some Sample.quarters) (Some whole_tile) = false
  /\ exists a : Tessellation,
       segments r.1 = Some (segmentVector a)
       /\ maskedBoundsBuffer r.1 = Some {| vb_array := maskedBoundsArray a |}
       /\ maskedIndexBuffer r.1 = Some {| ib_array := indexArray a |}
       /\ VertexBufferCreate (maskedBoundsArray a) ∈ r.2
       /\ IndexBufferCreate (indexArray a) ∈ r.2
       /\ length (maskedBoundsArray a) = (4 * length Sample.quarters)%nat
       /\ length (indexArray a) = (2 * length Sample.quarters)%nat
       /\ forall i key v, Sample.quarters !! i = Some (key, v) ->
            mask_quad Sample.env a i key.
Proof.
  intros r. split; [reflexivity |]. split; [reflexivity |].
  apply (setMask_tessellates Sample.env Sample.quarters Sample.fresh); reflexivity.
Defined.

(** The two quarters of the sample mask, as uploaded. *)
Lemma setMask_quarters :
  let t := (setMask Sample.env Sample.quarters Sample.fresh).1 in
  maskedBoundsBuffer t =
    Some {| vb_array :=
              [ (0, 0, 0, 0); (4096, 0, 4096, 0);
                (0, 4096, 0, 4096); (4096, 4096, 4096, 4096);
                (4096, 4096, 4096, 4096); (8192, 4096, 8192, 4096);
                (4096, 8192, 4096, 8192); (8192, 8192, 8192, 8192) ] |}
  /\ maskedIndexBuffer t =
       Some {| ib_array := [ (0, 1, 2); (1, 2, 3); (4, 5, 6); (5, 6, 7) ] |}
  /\ segments t =
       Some [ {| vertexOffset := 0; primitiveOffset := 0;
                 vertexLength := 8; primitiveLength := 4 |} ].
Proof. repeat split. Qed.

(** While the mask fits one segment, [offset] is the place of the
    sub-region's first vertex in the whole array. *)
Lemma tessellate_one_segment (env : Env) (keys : list Z) (a : Tessellation) (n : nat) :
  4 * Z.of_nat (n + length keys) <= MAX_VERTEX_ARRAY_LENGTH env ->
  segmentVector a =
    [ {| vertexOffset := 0; primitiveOffset := 0;
         vertexLength := 4 * Z.of_nat n; primitiveLength := 2 * Z.of_nat n |} ] ->
  segmentVector (tessellate env keys a) =
    [ {| vertexOffset := 0; primitiveOffset := 0;
         vertexLength := 4 * Z.of_nat (n + length keys);
         primitiveLength := 2 * Z.of_nat (n + length keys) |} ].
Proof.
  revert a n. induction keys as [| key keys IH]; intros a n Hfit Hseg.
  - cbn. rewrite Hseg, Nat.add_0_r. reflexivity.
  - cbn [tessellate length] in *.
    replace (n + S (length keys))%nat with (S n + length keys)%nat in * by lia.
    apply IH; [done |].
    cbn. unfold prepareSegment. rewrite Hseg. cbn.
    replace (4 * Z.of_nat n + 4 >? MAX_VERTEX_ARRAY_LENGTH env) with false by lia.
    cbn. do 2 f_equal; lia.
Qed.

(** X15: when the whole mask fits one segment (four vertices for each
    sub-region, within [MAX_VERTEX_ARRAY_LENGTH]), the triangles of the
    [i]-th sub-region are [(4i, 4i+1, 4i+2)] and [(4i+1, 4i+2, 4i+3)]:
    the indices are places in the whole vertex array. *)
Lemma setMask_one_segment (env : Env) (m : Mask) (t : Tile) :
  deepEqual (mask t) (Some m) = false ->
  deepEqual (Some m) (Some whole_tile) = false ->
  4 * Z.of_nat (length m) <= MAX_VERTEX_ARRAY_LENGTH env ->
  forall a, segments (setMask env m t).1 = Some (segmentVector a) ->
  forall i key, mask_quad env a i key ->
  indexArray a !! (2 * i)%nat
    = Some (4 * Z.of_nat i, 4 * Z.of_nat i + 1, 4 * Z.of_nat i + 2)
  /\ indexArray a !! (2 * i + 1)%nat
    = Some (4 * Z.of_nat i + 1, 4 * Z.of_nat i + 2, 4 * Z.of_nat i + 3).
Proof.
  intros Hdiff Hpart Hfit a Hsegs i key Hquad.
  destruct (setMask_tessellated env m t Hdiff Hpart) as (_ & Hs & _).
  rewrite Hs in Hsegs. injection Hsegs as Hsegs.
  rewrite (tessellate_one_segment env (fst <$> m) _ 0) in Hsegs.
  - destruct Hquad as (_ & _ & _ & _ & seg & offset & Hin & Ht0 & Ht1 & _ & _ & Hoff & _).
    rewrite <- Hsegs in Hin. apply list_elem_of_singleton in Hin. subst seg.
    cbn in Hoff. replace offset with (4 * Z.of_nat i) in * by lia. done.
  - rewrite length_fmap. cbn. lia.
  - reflexivity.
Qed.


(** * Further properties *)

(** ** Expiry *)

Lemma setExpiryData_fresh_witness :
  let t := Sample.expiring 1000 3 in
  let data := {| cacheControl := Some (Some (Some 60000)); expires := None |} in
  (newExpiration data 5000 t = Some 65000 /\ 5001 < 65000 /\ 65000 <> 0)
  /\ (let u := setExpiryData data 5000 5001 t in
      expirationTime u = Some 65000 /\ state u = state t
      /\ expiredRequestCount u = 0).
Proof.
  intros t data. split.
  - repeat split; try reflexivity; lia.
  - apply (setExpiryData_fresh data 5000 5001 t 65000); try reflexivity; lia.
Defined.

(** X21: a response that brings no expiration to a tile that has none changes
    nothing. *)
Theorem setExpiryData_without_expiration (data : ExpiryData) (now_cc now : Z)
    (t : Tile) :
  expirationTime t = None ->
  (cacheControl data = None \/ cacheControl data = Some None) ->
  (cacheControl data = None -> expires data = None) ->
  setExpiryData data now_cc now t = t.
Proof.
  intros Hprior Hcc Hexp. unfold setExpiryData, newExpiration.
  destruct Hcc as [Hcc | Hcc]; rewrite Hcc; [rewrite (Hexp Hcc) |];
    rewrite Hprior; destruct t; cbn in *; by subst.
Qed.

Lemma setExpiryData_without_expiration_witness :
  let data := {| cacheControl := Some None; expires := Some (Some 99) |} in
  (expirationTime Sample.fresh = None
   /\ (cacheControl data = None \/ cacheControl data = Some None)
   /\ (cacheControl data = None -> expires data = None))
  /\ setExpiryData data 10 20 Sample.fresh = Sample.fresh.
Proof.
  intros data. split.
  - split; [reflexivity |]. split; [by right | discriminate].
  - apply setExpiryData_without_expiration; [reflexivity | by right | discriminate].
Defined.

(** X19: an expiration that is not ahead of the clock expires the tile when
    there is no prior one to compare with, or when it is not later than
    the prior one (the same stale answer again, or an earlier one): the
    state becomes expired, the count grows by one and the expiration is
    recorded as given. *)
Theorem setExpiryData_stale (data : ExpiryData) (now_cc now : Z) (t : Tile)
    (T1 : Z) :
  newExpiration data now_cc t = Some T1 -> T1 <> 0 ->
  T1 <= now ->
  (forall T0, expirationTime t = Some T0 -> T0 = 0 \/ T1 <= T0) ->
  let u := setExpiryData data now_cc now t in
  state u = expired
  /\ expiredRequestCount u = expiredRequestCount t + 1
  /\ expirationTime u = Some T1.
Proof.
  intros Hnew Hn Hnow Hprior. unfold setExpiryData. cbv zeta.
  rewrite expirationTime_set, Hnew, (truthy_true _ Hn).
  replace (T1 >? now) with false by lia.
  destruct (expirationTime t) as [T0 |] eqn:Ht; [| by cbn].
  destruct (Hprior T0 eq_refl) as [-> | Hle]; [by cbn |].
  destruct (JS.truthy T0); cbn; [| done].
  destruct (T1 <? T0) eqn:Hlt; [by cbn |].
  assert (T1 - T0 = 0) as -> by lia. by cbn.
Qed.

Lemma setExpiryData_stale_witness :
  let t := Sample.expiring 4000 1 in
  let data := {| cacheControl := None; expires := None |} in
  (newExpiration data 0 t = Some 4000 /\ 4000 <> 0 /\ 4000 <= 9000
   /\ (forall T0, expirationTime t = Some T0 -> T0 = 0 \/ 4000 <= T0))
  /\ (let u := setExpiryData data 0 9000 t in
      state u = expired
      /\ expiredRequestCount u = expiredRequestCount t + 1
      /\ expirationTime u = Some 4000).
Proof.
  intros t data.
  assert (forall T0, expirationTime t = Some T0 -> T0 = 0 \/ 4000 <= T0) as Hprior.
  { intros T0 [= <-]. right. lia. }
  split.
  - repeat split; try reflexivity; try lia. exact Hprior.
  - apply (setExpiryData_stale data 0 9000 t 4000); try reflexivity; try lia.
    exact Hprior.
Defined.

(** X20: past the prior expiration but not ahead of the clock: the expiration
    is moved to the clock reading plus the distance from the prior one,
    and at least [CLOCK_SKEW_RETRY_TIMEOUT] ahead. *)
Theorem setExpiryData_interpolation (data : ExpiryData) (now_cc now : Z)
    (t : Tile) (T0 T1 : Z) :
  expirationTime t = Some T0 -> T0 <> 0 ->
  newExpiration data now_cc t = Some T1 -> T1 <> 0 ->
  T1 <= now -> T0 < T1 ->
  let u := setExpiryData data now_cc now t in
  expirationTime u = Some (now + Z.max (T1 - T0) 30000)
  /\ (forall e, expirationTime u = Some e -> now + 30000 <= e /\ now + (T1 - T0) <= e)
  /\ state u = state t
  /\ expiredRequestCount u = 0.
Proof.
  intros Hprior Hp Hnew Hn Hnow Hlt. unfold setExpiryData. cbv zeta.
  rewrite expirationTime_set, Hnew, Hprior, (truthy_true _ Hn), (truthy_true _ Hp).
  replace (T1 >? now) with false by lia.
  replace (T1 <? T0) with false by lia.
  rewrite (truthy_true (T1 - T0)) by lia.
  cbn. unfold CLOCK_SKEW_RETRY_TIMEOUT. split_and!; try done.
  intros e [= <-]. lia.
Qed.

Lemma setExpiryData_interpolation_witness :
  let t := Sample.expiring 1000 2 in
  let data := {| cacheControl := None; expires := Some (Some 91000) |} in
  (expirationTime t = Some 1000 /\ 1000 <> 0
   /\ newExpiration data 0 t = Some 91000 /\ 91000 <> 0
   /\ 91000 <= 100000 /\ 1000 < 91000)
  /\ (let u := setExpiryData data 0 100000 t in
      expirationTime u = Some (100000 + Z.max (91000 - 1000) 30000)
      /\ (forall e, expirationTime u = Some e ->
            100000 + 30000 <= e /\ 100000 + (91000 - 1000) <= e)
      /\ state u = state t
      /\ expiredRequestCount u = 0).
Proof.
  intros t data. split.
  - repeat split; try reflexivity; lia.
  - apply (setExpiryData_interpolation data 0 100000 t 1000 91000);
      try reflexivity; lia.
Defined.

(** Whatever the prior expiration: the call marks the tile expired
    exactly when the expiration it ends with is not ahead of the clock,
    and resets the count exactly when it is. *)
Lemma setExpiryData_cases (data : ExpiryData) (now_cc now : Z)
    (t : Tile) (T1 : Z) :
  newExpiration data now_cc t = Some T1 -> T1 <> 0 ->
  let u := setExpiryData data now_cc now t in
  (state u = expired
   /\ expiredRequestCount u = expiredRequestCount t + 1
   /\ expirationTime u = Some T1 /\ T1 <= now)
  \/ (state u = state t
      /\ expiredRequestCount u = 0
      /\ exists e, expirationTime u = Some e /\ now < e).
Proof.
  intros Hnew Hn. unfold setExpiryData. cbv zeta.
  rewrite expirationTime_set, Hnew, (truthy_true _ Hn).
  destruct (T1 >? now) eqn:Hahead.
  { right. cbn. split_and!; try done. exists T1. split; [done | lia]. }
  destruct (expirationTime t) as [T0 |]; [| left; cbn; split_and!; try done; lia].
  destruct (JS.truthy T0); cbn; [| left; cbn; split_and!; try done; lia].
  destruct (T1 <? T0); [left; cbn; split_and!; try done; lia |].
  destruct (JS.truthy (T1 - T0)); cbn.
  - right. split_and!; try done. eexists. split; [done |].
    unfold CLOCK_SKEW_RETRY_TIMEOUT. lia.
  - left. split_and!; try done; lia.
Qed.

(** X24: [getExpiryTimeout] read at the clock reading of the [setExpiryData]
    before it, on a tile whose count was between 0 and 30 and with the
    clock past the epoch: there is a timeout and it is positive; when the
    tile was not marked expired it is the time left, at most [2^31 - 1];
    when it was, it is [1000 * 2^count] for the count before the call. *)
Theorem getExpiryTimeout_after_setExpiryData (data : ExpiryData)
    (now_cc now : Z) (t : Tile) (T1 : Z) :
  newExpiration data now_cc t = Some T1 -> T1 <> 0 ->
  0 <= now ->
  0 <= expiredRequestCount t <= 30 ->
  let u := setExpiryData data now_cc now t in
  exists v,
    getExpiryTimeout now u = Some v
    /\ 0 < v
    /\ (state u = expired /\ v = 1000 * 2 ^ expiredRequestCount t
        \/ state u = state t /\ v <= 2 ^ 31 - 1).
Proof.
  intros Hnew Hn Hclock Hcount u.
  destruct (setExpiryData_cases data now_cc now t T1 Hnew Hn)
    as [(Hs & Hc & He & Hpast) | (Hs & Hc & e & He & Hahead)]; fold u in Hs, Hc, He.
  - exists (1000 * 2 ^ expiredRequestCount t). unfold getExpiryTimeout.
    rewrite He, (truthy_true _ Hn), Hc, (truthy_true (expiredRequestCount t + 1)) by lia.
    rewrite Z.min_l by lia. rewrite shl_1_small by lia.
    replace (expiredRequestCount t + 1 - 1) with (expiredRequestCount t) by lia.
    split_and!; [done | | by left].
    pose proof (Z.pow_pos_nonneg 2 (expiredRequestCount t)). lia.
  - exists (Z.min (e - now) (2 ^ 31 - 1)). unfold getExpiryTimeout.
    rewrite He, (truthy_true e), Hc by lia. cbn [JS.truthy Z.eqb negb].
    split_and!; [done | lia | right; split; [done | lia]].
Qed.

Lemma getExpiryTimeout_after_setExpiryData_witness :
  let t := Sample.expiring 4000 3 in
  let data := {| cacheControl := None; expires := Some (Some 3000) |} in
  (newExpiration data 0 t = Some 3000 /\ 3000 <> 0 /\ 0 <= 9000
   /\ 0 <= expiredRequestCount t <= 30)
  /\ (let u := setExpiryData data 0 9000 t in
      exists v,
        getExpiryTimeout 9000 u = Some v
        /\ 0 < v
        /\ (state u = expired /\ v = 1000 * 2 ^ expiredRequestCount t
            \/ state u = state t /\ v <= 2 ^ 31 - 1)).
Proof.
  intros t data. split.
  - repeat split; try reflexivity; cbn; lia.
  - apply (getExpiryTimeout_after_setExpiryData data 0 9000 t 3000);
      try reflexivity; cbn; lia.
Defined.

Lemma getExpiryTimeout_backoff_witness :
  let t := Sample.expiring 1000 5 in
  (expirationTime t = Some 1000 /\ 1000 <> 0 /\ 1 <= expiredRequestCount t <= 31)
  /\ getExpiryTimeout 0 t = Some (1000 * 2 ^ (expiredRequestCount t - 1)).
Proof.
  intros t. split.
  - repeat split; try reflexivity; cbn; lia.
  - apply (getExpiryTimeout_backoff 0 t 1000); try reflexivity; cbn; lia.
Defined.

(** X23: the cap of [2^31 - 1] is on the time left only: from a count of 23 on
    the backoff is beyond what a 32-bit timer takes. *)
Theorem getExpiryTimeout_backoff_beyond_timer (now : Z) (t : Tile) (e : Z) :
  expirationTime t = Some e -> e <> 0 ->
  23 <= expiredRequestCount t <= 31 ->
  exists v, getExpiryTimeout now t = Some v /\ 2 ^ 31 - 1 < v.
Proof.
  intros He Hnz Hc. unfold getExpiryTimeout.
  rewrite He, (truthy_true _ Hnz), (truthy_true (expiredRequestCount t)) by lia.
  rewrite Z.min_l by lia. rewrite shl_1_small by lia.
  eexists. split; [done |].
  assert (2 ^ 22 <= 2 ^ (expiredRequestCount t - 1)) by (apply Z.pow_le_mono_r; lia).
  lia.
Qed.

Lemma getExpiryTimeout_backoff_beyond_timer_witness :
  let t := Sample.expiring 1000 23 in
  (expirationTime t = Some 1000 /\ 1000 <> 0 /\ 23 <= expiredRequestCount t <= 31)
  /\ exists v, getExpiryTimeout 0 t = Some v /\ 2 ^ 31 - 1 < v.
Proof.
  intros t. split.
  - repeat split; try reflexivity; cbn; lia.
  - apply (getExpiryTimeout_backoff_beyond_timer 0 t 1000); try reflexivity; cbn; lia.
Defined.

(** X25: the count is never negative: a sequence of operations keeps it at or
    above 0. *)
Theorem expiredRequestCount_nonneg (env : Env) (ops : list Op) (t : Tile) :
  0 <= expiredRequestCount t ->
  0 <= expiredRequestCount (run env ops t).
Proof.
  unfold run. revert t. induction ops as [| op ops IH]; intros t Hc; cbn; [done |].
  apply IH. destruct op; cbn [exec].
  - unfold loadVectorData, take_atlas_images. destruct (hasData t), t; cbn in *; by_cases.
  - done.
  - unfold upload. destruct (upload_buckets _ _). destruct t; cbn in *; by_cases.
  - unfold querySourceFeatures. destruct t; cbn in *; by_cases.
  - done.
  - unfold setMask. destruct t; cbn in *; by_cases.
  - unfold setExpiryData. destruct t; cbn in *; by_cases; lia.
  - done.
Qed.

Lemma expiredRequestCount_nonneg_witness :
  let ops := [ LoadVectorData (Some Sample.payload) Sample.painter;
               SetExpiryData {| cacheControl := None; expires := Some (Some 10) |} 0 50;
               AssignState reloading;
               SetExpiryData {| cacheControl := None; expires := Some (Some 10) |} 0 60 ] in
  0 <= expiredRequestCount Sample.fresh
  /\ 0 <= expiredRequestCount (run Sample.env ops Sample.fresh).
Proof.
  intros ops. split; [cbn; lia |].
  apply (expiredRequestCount_nonneg Sample.env ops Sample.fresh). cbn. lia.
Defined.

(** ** Vector data *)

Lemma no_data_no_buckets_run_witness :
  let ops := [ LoadVectorData (Some Sample.payload) Sample.painter; Upload;
               SetExpiryData {| cacheControl := None; expires := Some (Some 10) |} 0 50;
               UnloadVectorData; SetMask Sample.quarters ] in
  (forallb is_method ops = true /\ no_data_no_buckets Sample.fresh = true)
  /\ no_data_no_buckets (run Sample.env ops Sample.fresh) = true.
Proof.
  intros ops. split; [by split |].
  by apply (no_data_no_buckets_run Sample.env ops Sample.fresh).
Defined.

(** X1: what a payload does not bring stays: without raw bytes in the payload
    the tile keeps the raw bytes of an earlier load, and the new feature
    index is bound to them; without an atlas image it keeps a pending
    image of an earlier load.  What the payload brings replaces what was
    there, and the feature index is always bound to the raw bytes the tile
    ends with. *)
Theorem loadVectorData_installs (env : Env) (d : WorkerTileResult)
    (painter : Painter) (t : Tile) :
  let u := (loadVectorData env (Some d) painter t).1 in
  state u = loaded
  /\ buckets u = deserializeBucket env (wr_buckets d) (style painter)
  /\ collisionBoxArray u = Some (wr_collisionBoxArray d)
  /\ rawTileData u = from_option Some (rawTileData t) (wr_rawTileData d)
  /\ featureIndex u =
       Some {| fi_serialized := wr_featureIndex d; fi_rawTileData := rawTileData u |}
  /\ iconAtlasImage u = from_option Some (iconAtlasImage t) (wr_iconAtlasImage d)
  /\ glyphAtlasImage u = from_option Some (glyphAtlasImage t) (wr_glyphAtlasImage d)
  /\ iconAtlasTexture u = iconAtlasTexture t
  /\ glyphAtlasTexture u = glyphAtlasTexture t
  /\ vtLayers u = vtLayers t.
Proof.
  unfold loadVectorData, take_atlas_images.
  destruct d as [raw cba fi bs icon glyph]. cbn.
  destruct (hasData t), t, raw, icon, glyph; cbn; by split_and!.
Qed.

Lemma loadVectorData_query_frame (env : Env) (d : WorkerTileResult)
    (painter : Painter) (t : Tile) :
  let u := (loadVectorData env (Some d) painter t).1 in
  vtLayers u = vtLayers t /\ coord u = coord t
  /\ (is_Some (rawTileData t) -> is_Some (rawTileData u)).
Proof.
  unfold loadVectorData, take_atlas_images.
  destruct d as [raw cba fi bs icon glyph]. cbn.
  destruct (hasData t), t, raw, icon, glyph; cbn; by split_and!.
Qed.

(** X11: the parsed layers outlive a reload: once a query has parsed the raw
    bytes, a later load with other raw bytes leaves [vtLayers] as parsed,
    and queries keep answering from the first payload. *)
Theorem querySourceFeatures_stale_after_reload (env : Env) (painter : Painter)
    (d : WorkerTileResult) (t : Tile) (raw : ArrayBuffer)
    (result result' : list GeoJSONFeature) (params params' : option QueryParams) :
  rawTileData t = Some raw -> vtLayers t = None ->
  let queried := (querySourceFeatures env result params t).1 in
  let reloaded := (loadVectorData env (Some d) painter queried).1 in
  vtLayers reloaded = Some (VectorTile_layers env raw)
  /\ (querySourceFeatures env result' params' reloaded).2
     = (querySourceFeatures env result' params' queried).2.
Proof.
  intros Hraw Hvt queried reloaded.
  assert (vtLayers queried = Some (VectorTile_layers env raw)
          /\ coord queried = coord t /\ is_Some (rawTileData queried)) as (Hq & Hc & Hr).
  { unfold queried, querySourceFeatures. rewrite Hraw, Hvt. cbn.
    destruct (select_layer _ _); cbn; by rewrite ?Hraw. }
  destruct (loadVectorData_query_frame env d painter queried) as (Hvt' & Hc' & Hr').
  fold reloaded in Hvt', Hc', Hr'. destruct (Hr' Hr) as [raw' Hraw'].
  split; [congruence |].
  destruct Hr as [raw0 Hr].
  unfold querySourceFeatures. rewrite Hraw', Hr, Hvt', Hq. cbn.
  rewrite Hvt', Hq. destruct (select_layer _ _); cbn; by rewrite ?Hc'.
Qed.

Lemma querySourceFeatures_stale_after_reload_witness :
  let t := Sample.ingested in
  let queried := (querySourceFeatures Case.env_bytes [] Case.road_params t).1 in
  let reloaded :=
    (loadVectorData Case.env_bytes (Some Case.payload_7) Sample.painter queried).1 in
  (rawTileData t = Some [x1a; x02] /\ vtLayers t = None)
  /\ vtLayers reloaded = Some (VectorTile_layers Case.env_bytes [x1a; x02])
  /\ (querySourceFeatures Case.env_bytes [] Case.road_params reloaded).2
     = (querySourceFeatures Case.env_bytes [] Case.road_params queried).2.
Proof.
  intros t queried reloaded. split; [by split |].
  by apply (querySourceFeatures_stale_after_reload Case.env_bytes Sample.painter
              Case.payload_7 t [x1a; x02]).
Defined.

Lemma loadVectorData_calls (env : Env) (data : option WorkerTileResult)
    (painter : Painter) (t : Tile) :
  (loadVectorData env data painter t).2
  = if hasData t then (unloadVectorData t).2 else [].
Proof.
  unfold loadVectorData. by destruct (hasData t), data.
Qed.

Lemma upload_textures (t : Tile) :
  iconAtlasTexture (upload t).1
  = from_option (fun img => Some {| tex_image := img; tex_format := RGBA |})
      (iconAtlasTexture t) (iconAtlasImage t)
  /\ glyphAtlasTexture (upload t).1
     = from_option (fun img => Some {| tex_image := img; tex_format := ALPHA |})
         (glyphAtlasTexture t) (glyphAtlasImage t).
Proof.
  unfold upload. destruct (upload_buckets _ _) as [objs ups].
  destruct t; cbn. by_cases.
Qed.

(** X2: no leak across a reload: what a load installs, and the textures an
    upload makes of its atlas images, the next load destroys (whatever it
    brings), and it creates nothing. *)
Theorem loadVectorData_releases_previous (env : Env) (d : WorkerTileResult)
    (next : option WorkerTileResult) (painter painter' : Painter) (t : Tile) :
  let loaded_t := (loadVectorData env (Some d) painter t).1 in
  let r := loadVectorData env next painter' (upload loaded_t).1 in
  (forall id obj,
     (id, obj) ∈ layers (deserializeBucket env (wr_buckets d) (style painter)) ->
     BucketDestroy id obj ∈ r.2)
  /\ (forall img, wr_iconAtlasImage d = Some img ->
        TextureDestroy {| tex_image := img; tex_format := RGBA |} ∈ r.2)
  /\ (forall img, wr_glyphAtlasImage d = Some img ->
        TextureDestroy {| tex_image := img; tex_format := ALPHA |} ∈ r.2)
  /\ forall c, c ∈ r.2 -> is_destroy c = true.
Proof.
  intros loaded_t r.
  assert (state loaded_t = loaded /\
          buckets loaded_t = deserializeBucket env (wr_buckets d) (style painter) /\
          (forall img, wr_iconAtlasImage d = Some img -> iconAtlasImage loaded_t = Some img) /\
          (forall img, wr_glyphAtlasImage d = Some img -> glyphAtlasImage loaded_t = Some img))
    as (Hs & Hb & Hicon & Hglyph).
  { unfold loaded_t, loadVectorData, take_atlas_images.
    destruct d as [raw cba fi bs icon glyph]. cbn.
    destruct (hasData t), t, raw, icon, glyph; cbn; split_and!; try done. }
  destruct (upload_frame loaded_t) as (Hs' & Hl' & _).
  destruct (upload_textures loaded_t) as (Hti & Htg).
  assert (r.2 = (unloadVectorData (upload loaded_t).1).2) as Hcalls.
  { unfold r. rewrite loadVectorData_calls.
    unfold hasData. by rewrite Hs', Hs. }
  destruct (unloadVectorData_releases (upload loaded_t).1) as (Hrb & Hri & Hrg).
  rewrite Hcalls. split_and!.
  - intros id obj Hin. apply Hrb. by rewrite Hl', Hb.
  - intros img Himg. apply Hri. by rewrite Hti, (Hicon img Himg).
  - intros img Himg. apply Hrg. by rewrite Htg, (Hglyph img Himg).
  - intros c. rewrite unloadVectorData_calls.
    rewrite !elem_of_app, list_elem_of_fmap.
    intros [(e & -> & _) | [Hin | Hin]]; [done | |].
    + destruct (iconAtlasTexture _); cbn in Hin;
        [apply list_elem_of_singleton in Hin as -> | apply elem_of_nil in Hin]; done.
    + destruct (glyphAtlasTexture _); cbn in Hin;
        [apply list_elem_of_singleton in Hin as -> | apply elem_of_nil in Hin]; done.
Qed.

(** ** Source-feature queries *)

Ltac nothing_found :=
  exists []; split;
  [ by rewrite app_nil_r | intros ? Hin; by apply elem_of_nil in Hin ].


(** X10: a tile made from GeoJSON has the one layer [_geojsonTileLayer], and it
    is that layer a query reads, whatever [sourceLayer] asks for. *)
Theorem querySourceFeatures_geojson (env : Env) (result : list GeoJSONFeature)
    (params : option QueryParams) (t : Tile) (raw : ArrayBuffer)
    (layer : VectorTileLayer) :
  rawTileData t = Some raw ->
  lookup_vtLayer "_geojsonTileLayer"
    (default (VectorTile_layers env raw) (vtLayers t)) = Some layer ->
  (querySourceFeatures env result params t).2 =
    result ++ (geojsonFeature (coord t)
                 <$> List.filter (featureFilter env (params ≫= filter_spec)
                                    (TileCoord.z (coord t))) layer).
Proof.
  intros Hraw Hgeo. unfold querySourceFeatures, select_layer. rewrite Hraw.
  destruct (vtLayers t) as [parsed |] eqn:Hvt; cbn in *; by rewrite ?Hvt, Hgeo.
Qed.

Lemma querySourceFeatures_geojson_witness :
  let t := Sample.ingested in
  (rawTileData t = Some [x1a; x02]
   /\ lookup_vtLayer "_geojsonTileLayer"
        (default (VectorTile_layers Case.env_geojson [x1a; x02]) (vtLayers t))
      = Some [Sample.road])
  /\ (querySourceFeatures Case.env_geojson [] Case.road_params t).2 =
       [] ++ (geojsonFeature (coord t)
                <$> List.filter
                      (featureFilter Case.env_geojson (Case.road_params ≫= filter_spec)
                         (TileCoord.z (coord t))) [Sample.road]).
Proof.
  intros t. split; [by split |].
  by apply (querySourceFeatures_geojson Case.env_geojson [] Case.road_params t [x1a; x02]).
Defined.

(** On the sample tile: the first query parses the bytes [26, 2]; after a
    load that brings the byte [7], the query still gives the features 26
    and 2. *)
Lemma querySourceFeatures_stale_sample :
  let queried := (querySourceFeatures Case.env_bytes [] Case.road_params Sample.ingested).1 in
  let reloaded := (loadVectorData Case.env_bytes (Some Case.payload_7) Sample.painter queried).1 in
  rawTileData reloaded = Some [x07]
  /\ gj_feature <$> (querySourceFeatures Case.env_bytes [] Case.road_params reloaded).2
     = [ {| vtf_id := 26; vtf_properties := [] |};
         {| vtf_id := 2; vtf_properties := [] |} ].
Proof. by split. Qed.

(** ** Buckets *)

Lemma upload_buckets_object (ls : list (string * nat)) (objs : list Bucket)
    (obj : nat) (b : Bucket) :
  objs !! obj = Some b ->
  (upload_buckets ls objs).1 !! obj = Some b
  \/ (upload_buckets ls objs).1 !! obj = Some (mark_uploaded b).
Proof.
  revert objs b. induction ls as [| [id r] ls IH]; intros objs b Hb; cbn; [by left |].
  destruct (objs !! r) as [b0 |] eqn:Hb0; [| by apply IH].
  destruct (uploaded b0) eqn:Hup0; [by apply IH |].
  specialize (IH (<[r := mark_uploaded b0]> objs)).
  destruct (upload_buckets ls _) as [objs' calls]. cbn in *.
  destruct (decide (r = obj)) as [-> | Hne].
  - assert (b0 = b) as -> by congruence. right.
    destruct (IH (mark_uploaded b)) as [H | H]; [| done | done].
    apply list_lookup_insert_eq. by eapply lookup_lt_Some.
  - apply IH. by rewrite list_lookup_insert_ne.
Qed.

Lemma upload_buckets_field (t : Tile) :
  buckets (upload t).1 =
    {| objects := (upload_buckets (layers (buckets t)) (objects (buckets t))).1;
       layers := layers (buckets t) |}.
Proof.
  unfold upload. destruct (upload_buckets _ _) as [objs ups].
  destruct t; cbn. by_cases.
Qed.

Lemma lookup_layer_elem (id : string) (ls : list (string * nat)) (obj : nat) :
  lookup_layer id ls = Some obj -> (id, obj) ∈ ls.
Proof.
  induction ls as [| [k r] ls IH]; cbn; [done |].
  destruct (String.eqb k id) eqn:Hk.
  - intros [= ->]. apply String.eqb_eq in Hk as ->. apply list_elem_of_here.
  - intros H. by apply list_elem_of_further, IH.
Qed.

Lemma mark_uploaded_flagged (b : Bucket) : uploaded b = true -> mark_uploaded b = b.
Proof. destruct b. cbn. by intros ->. Qed.


(** ** Masks *)

(** X12: [clearMask] releases each handle once: a second call finds none.  And
    it leaves [mask] as it is, so that applying the same mask again is
    taken for redundant: nothing is tessellated and the tile stays without
    mask buffers. *)
Theorem setMask_after_clearMask (env : Env) (m : Mask) (t : Tile) :
  deepEqual (mask t) (Some m) = true ->
  let c := (clearMask t).1 in
  clearMask c = (c, [])
  /\ setMask env m c = (c, [])
  /\ segments c = None /\ maskedBoundsBuffer c = None /\ maskedIndexBuffer c = None.
Proof.
  intros Heq c. split_and!; try done.
  apply setMask_same. exact Heq.
Qed.

Lemma setMask_after_clearMask_witness :
  let t := Sample.masked in
  let c := (clearMask t).1 in
  deepEqual (mask t) (Some Sample.quarters) = true
  /\ clearMask c = (c, [])
  /\ setMask Sample.env Sample.quarters c = (c, [])
  /\ segments c = None /\ maskedBoundsBuffer c = None /\ maskedIndexBuffer c = None.
Proof.
  intros t c. split; [reflexivity |].
  by apply (setMask_after_clearMask Sample.env Sample.quarters t).
Defined.

Lemma lookup_mask_NoDup (m : Mask) (key : Z) (v : bool) :
  NoDup (fst <$> m) -> (key, v) ∈ m -> lookup_mask key m = Some v.
Proof.
  induction m as [| [k w] m IH]; intros Hnd Hin; [by apply elem_of_nil in Hin |].
  cbn in *. apply NoDup_cons in Hnd as [Hk Hnd].
  apply elem_of_cons in Hin as [[= -> ->] | Hin].
  - by rewrite Z.eqb_refl.
  - destruct (k =? key) eqn:Heq; [| by apply IH].
    apply Z.eqb_eq in Heq as ->. exfalso. apply Hk.
    apply list_elem_of_fmap. by exists (key, v).
Qed.

(** A mask object (its keys are distinct) is deep-equal to itself. *)
Lemma deepEqual_obj_refl (m : Mask) : NoDup (fst <$> m) -> deepEqual_obj m m = true.
Proof.
  intros Hnd. unfold deepEqual_obj. rewrite bool_decide_eq_true_2 by done. cbn.
  apply forallb_forall. intros [k v] Hin. apply bool_decide_eq_true. cbn.
  apply lookup_mask_NoDup; [done |]. by apply list_elem_of_In.
Qed.

(** X13: applying a mask twice: the second call makes no call and changes no
    field. *)
Theorem setMask_twice (env : Env) (m : Mask) (t : Tile) :
  NoDup (fst <$> m) ->
  setMask env m (setMask env m t).1 = ((setMask env m t).1, []).
Proof.
  intros Hnd. apply setMask_same.
  destruct (deepEqual (mask t) (Some m)) eqn:Hsame.
  - by rewrite (setMask_same env m t Hsame).
  - assert (mask (setMask env m t).1 = Some m) as ->.
    { unfold setMask. rewrite Hsame. cbn -[deepEqual tessellate].
      by destruct (deepEqual (Some m) (Some whole_tile)). }
    by apply deepEqual_obj_refl.
Qed.

Lemma setMask_twice_witness :
  NoDup (fst <$> Case.four_quarters)
  /\ setMask Sample.env Case.four_quarters
       (setMask Sample.env Case.four_quarters Sample.masked).1
     = ((setMask Sample.env Case.four_quarters Sample.masked).1, []).
Proof.
  assert (NoDup (fst <$> Case.four_quarters)) as Hnd.
  { apply (bool_decide_unpack _). vm_compute. exact I. }
  split; [exact Hnd |].
  by apply (setMask_twice Sample.env Case.four_quarters Sample.masked).
Defined.

(** X14: the empty mask is not the sentinel: there is nothing to draw, and
    still one segment is started and two (empty) buffers are created. *)
Theorem setMask_empty (env : Env) (t : Tile) :
  mask t <> Some [] ->
  let r := setMask env [] t in
  mask r.1 = Some []
  /\ segments r.1 = Some [ {| vertexOffset := 0; primitiveOffset := 0;
                             vertexLength := 0; primitiveLength := 0 |} ]
  /\ maskedBoundsBuffer r.1 = Some {| vb_array := [] |}
  /\ maskedIndexBuffer r.1 = Some {| ib_array := [] |}
  /\ r.2 = (clearMask t).2 ++ [VertexBufferCreate []; IndexBufferCreate []].
Proof.
  intros Hne.
  assert (deepEqual (mask t) (Some []) = false) as Hdiff.
  { destruct (mask t) as [[| e m] |]; [done | done | done]. }
  by destruct (setMask_tessellated env [] t Hdiff eq_refl) as (? & ? & ? & ? & ?).
Qed.

Lemma setMask_empty_witness :
  let r := setMask Sample.env [] Sample.masked in
  mask Sample.masked <> Some []
  /\ mask r.1 = Some []
  /\ segments r.1 = Some [ {| vertexOffset := 0; primitiveOffset := 0;
                             vertexLength := 0; primitiveLength := 0 |} ]
  /\ maskedBoundsBuffer r.1 = Some {| vb_array := [] |}
  /\ maskedIndexBuffer r.1 = Some {| ib_array := [] |}
  /\ r.2 = (clearMask Sample.masked).2 ++ [VertexBufferCreate []; IndexBufferCreate []].
Proof.
  intros r. split; [discriminate |].
  apply (setMask_empty Sample.env Sample.masked). discriminate.
Defined.

Lemma setMask_one_segment_witness :
  let a := tessellate Sample.env (fst <$> Sample.quarters)
             {| maskedBoundsArray := []; indexArray := [];
                segmentVector := prepareSegment Sample.env 0 0 0 [] |} in
  (deepEqual (mask Sample.fresh) (Some Sample.quarters) = false
   /\ deepEqual (Some Sample.quarters) (Some whole_tile) = false
   /\ 4 * Z.of_nat (length Sample.quarters) <= MAX_VERTEX_ARRAY_LENGTH Sample.env
   /\ segments (setMask Sample.env Sample.quarters Sample.fresh).1
      = Some (segmentVector a)
   /\ mask_quad Sample.env a 1 97)
  /\ indexArray a !! (2 * 1)%nat
     = Some (4 * Z.of_nat 1, 4 * Z.of_nat 1 + 1, 4 * Z.of_nat 1 + 2)
  /\ indexArray a !! (2 * 1 + 1)%nat
     = Some (4 * Z.of_nat 1 + 1, 4 * Z.of_nat 1 + 2, 4 * Z.of_nat 1 + 3).
Proof.
  intros a.
  assert (mask_quad Sample.env a 1 97) as Hquad.
  { unfold mask_quad. cbn. split_and!; try reflexivity.
    eexists _, 4. split_and!; [apply list_elem_of_here | done | done | ..]; cbn; lia. }
  split.
  - split_and!; try reflexivity; [cbn; lia | exact Hquad].
  - apply (setMask_one_segment Sample.env Sample.quarters Sample.fresh
             eq_refl eq_refl ltac:(cbn; lia) a eq_refl 1%nat 97 Hquad).
Defined.

Lemma alter_last_Forall {A : Type} (P : A -> Prop) (f : A -> A) (l : list A) :
  Forall P l -> (forall x, last l = Some x -> P (f x)) -> Forall P (alter_last f l).
Proof.
  induction l as [| a [| b l] IH]; intros Hall Hlast.
  - constructor.
  - cbn. constructor; [by apply Hlast | constructor].
  - change (alter_last f (a :: b :: l)) with (a :: alter_last f (b :: l)).
    apply Forall_cons in Hall as [Ha Hall]. constructor; [done |].
    apply IH; [done |]. intros x Hx. apply Hlast. by rewrite last_cons_cons.
Qed.

Lemma tessellate_key_within_limit (env : Env) (key : Z) (a : Tessellation) :
  4 <= MAX_VERTEX_ARRAY_LENGTH env ->
  within_limit env a -> within_limit env (tessellate_key env key a).
Proof.
  intros Hmax [Hsegs Htris].
  set (vlen := Z.of_nat (length (maskedBoundsArray a))).
  set (ilen := Z.of_nat (length (indexArray a))).
  assert (Forall (fun s => 0 <= vertexLength s <= MAX_VERTEX_ARRAY_LENGTH env)
            (prepareSegment env 4 vlen ilen (segmentVector a))
          /\ exists s, last (prepareSegment env 4 vlen ilen (segmentVector a)) = Some s
                       /\ 0 <= vertexLength s
                       /\ vertexLength s + 4 <= MAX_VERTEX_ARRAY_LENGTH env)
    as (Hprep & s & Hlast & Hs0 & Hs4).
  { unfold prepareSegment.
    destruct (last (segmentVector a)) as [s0 |] eqn:Hlast0.
    - destruct (_ >? _) eqn:Hfull.
      + split; [apply Forall_app; split; [done | constructor; [cbn; lia | constructor]] |].
        rewrite last_snoc. eexists. split; [done |]. cbn. lia.
      + split; [done |]. exists s0. split; [done |].
        apply last_Some_elem_of in Hlast0.
        rewrite Forall_forall in Hsegs. specialize (Hsegs s0 Hlast0). lia.
    - split; [apply Forall_app; split; [done | constructor; [cbn; lia | constructor]] |].
      rewrite last_snoc. eexists. split; [done |]. cbn. lia. }
  unfold within_limit. cbn. fold vlen ilen. rewrite Hlast. split.
  - apply alter_last_Forall; [done |]. intros x Hx. cbn.
    assert (x = s) as -> by congruence. lia.
  - apply Forall_app. split; [done |].
    repeat constructor; cbn; lia.
Qed.

Lemma tessellate_within_limit (env : Env) (keys : list Z) (a : Tessellation) :
  4 <= MAX_VERTEX_ARRAY_LENGTH env ->
  within_limit env a -> within_limit env (tessellate env keys a).
Proof.
  intros Hmax. revert a. induction keys as [| key keys IH]; intros a Ha; [done |].
  cbn [tessellate]. by apply IH, tessellate_key_within_limit.
Qed.

(** X16: with room for a quad in a segment, no segment of a tessellated mask
    holds more than [MAX_VERTEX_ARRAY_LENGTH] vertices, and every index
    of every triangle is below it: with the limit of 65535 the indices fit
    the 16 bits of the index array, however many sub-regions the mask
    has. *)
Theorem setMask_within_limit (env : Env) (m : Mask) (t : Tile) :
  4 <= MAX_VERTEX_ARRAY_LENGTH env ->
  deepEqual (mask t) (Some m) = false ->
  deepEqual (Some m) (Some whole_tile) = false ->
  exists a : Tessellation,
    segments (setMask env m t).1 = Some (segmentVector a)
    /\ maskedIndexBuffer (setMask env m t).1 = Some {| ib_array := indexArray a |}
    /\ Forall (fun s => 0 <= vertexLength s <= MAX_VERTEX_ARRAY_LENGTH env)
         (segmentVector a)
    /\ Forall (fun tri : Z * Z * Z =>
                 0 <= tri.1.1 < MAX_VERTEX_ARRAY_LENGTH env
                 /\ 0 <= tri.1.2 < MAX_VERTEX_ARRAY_LENGTH env
                 /\ 0 <= tri.2 < MAX_VERTEX_ARRAY_LENGTH env) (indexArray a).
Proof.
  intros Hmax Hdiff Hpart.
  destruct (setMask_tessellated env m t Hdiff Hpart) as (_ & Hs & _ & Hi & _).
  eexists. split; [exact Hs |]. split; [exact Hi |].
  apply tessellate_within_limit; [done |].
  split; cbn; [| constructor].
  unfold prepareSegment. cbn. constructor; [cbn; lia | constructor].
Qed.

Lemma setMask_within_limit_witness :
  let env := Case.env_segments 8 in
  (4 <= MAX_VERTEX_ARRAY_LENGTH env
   /\ deepEqual (mask Sample.fresh) (Some Case.four_quarters) = false
   /\ deepEqual (Some Case.four_quarters) (Some whole_tile) = false)
  /\ exists a : Tessellation,
       segments (setMask env Case.four_quarters Sample.fresh).1 = Some (segmentVector a)
       /\ maskedIndexBuffer (setMask env Case.four_quarters Sample.fresh).1
          = Some {| ib_array := indexArray a |}
       /\ Forall (fun s => 0 <= vertexLength s <= MAX_VERTEX_ARRAY_LENGTH env)
            (segmentVector a)
       /\ Forall (fun tri : Z * Z * Z =>
                    0 <= tri.1.1 < MAX_VERTEX_ARRAY_LENGTH env
                    /\ 0 <= tri.1.2 < MAX_VERTEX_ARRAY_LENGTH env
                    /\ 0 <= tri.2 < MAX_VERTEX_ARRAY_LENGTH env) (indexArray a).
Proof.
  intros env. split; [split_and!; [cbn; lia | reflexivity | reflexivity] |].
  apply (setMask_within_limit env Case.four_quarters Sample.fresh);
    [cbn; lia | reflexivity | reflexivity].
Defined.

(** With segments of at most 8 vertices the four quarters take two
    segments, and the indices start over in the second. *)
Lemma setMask_two_segments :
  let t := (setMask (Case.env_segments 8) Case.four_quarters Sample.fresh).1 in
  segments t =
    Some [ {| vertexOffset := 0; primitiveOffset := 0;
              vertexLength := 8; primitiveLength := 4 |};
           {| vertexOffset := 8; primitiveOffset := 4;
              vertexLength := 8; primitiveLength := 4 |} ]
  /\ maskedIndexBuffer t =
       Some {| ib_array := [ (0, 1, 2); (1, 2, 3); (4, 5, 6); (5, 6, 7);
                             (0, 1, 2); (1, 2, 3); (4, 5, 6); (5, 6, 7) ] |}.
Proof. by split. Qed.

Lemma mask_buffers_current_frame (env : Env) (t u : Tile) :
  mask u = mask t -> segments u = segments t ->
  maskedBoundsBuffer u = maskedBoundsBuffer t ->
  maskedIndexBuffer u = maskedIndexBuffer t ->
  mask_buffers_current env t -> mask_buffers_current env u.
Proof. unfold mask_buffers_current. by intros -> -> -> ->. Qed.

Lemma mask_buffers_current_exec (env : Env) (op : Op) (t : Tile) :
  mask_buffers_current env t -> mask_buffers_current env (exec env op t).
Proof.
  intros Hinv. destruct op; cbn [exec].
  - destruct (loadVectorData_frame env data painter t) as (_ & Hm & Hs & Hv & Hi).
    by apply (mask_buffers_current_frame env t).
  - exact Hinv.
  - destruct (upload_frame t) as (_ & _ & Hm & Hs & Hv & Hi).
    by apply (mask_buffers_current_frame env t).
  - destruct (querySourceFeatures_frame env result params t) as (_ & _ & Hm & Hs & Hv & Hi).
    by apply (mask_buffers_current_frame env t).
  - by left.
  - destruct (deepEqual (mask t) (Some m)) eqn:Hsame.
    { by rewrite (setMask_same env m t Hsame). }
    destruct (deepEqual (Some m) (Some whole_tile)) eqn:Hwhole.
    + left. unfold setMask. rewrite Hsame. cbn -[deepEqual]. by rewrite Hwhole.
    + right. exists m.
      destruct (setMask_tessellated env m t Hsame Hwhole) as (Hm & Hs & Hv & Hi & _).
      by split_and!.
  - destruct (setExpiryData_frame data now_cc now t) as (_ & _ & Hm & Hs & Hv & Hi).
    by apply (mask_buffers_current_frame env t).
  - exact Hinv.
Qed.

(** X17: the mask handles are kept in step with the mask: along any sequence of
    operations the tile has either no mask segments and no mask buffers at
    all, or all three, holding the tessellation of the mask in [mask],
    which is then not the sentinel. *)
Theorem mask_buffers_current_run (env : Env) (ops : list Op) (t : Tile) :
  mask_buffers_current env t -> mask_buffers_current env (run env ops t).
Proof.
  unfold run. revert t. induction ops as [| op ops IH]; intros t Hinv; cbn; [done |].
  by apply IH, mask_buffers_current_exec.
Qed.

Lemma mask_buffers_current_run_witness :
  let ops := [ SetMask Sample.quarters;
               LoadVectorData (Some Sample.payload) Sample.painter; Upload;
               SetMask whole_tile; SetMask Case.four_quarters; UnloadVectorData ] in
  mask_buffers_current Sample.env Sample.fresh
  /\ mask_buffers_current Sample.env (run Sample.env ops Sample.fresh).
Proof.
  intros ops. split; [by left |].
  apply (mask_buffers_current_run Sample.env ops Sample.fresh). by left.
Defined.

(** ** Fade *)

(** X26: with [timeAdded] set, [registerFadeDuration] either leaves the fade
    alone and does not arm the animation loop, or it records the end
    [duration + timeAdded], which then is not before the clock reading it
    was checked against nor before the end recorded so far, and arms the
    loop with the time left to it. *)
Theorem registerFadeDuration_later (duration now_check now_set : Z) (f : Fade)
    (added : Z) :
  timeAdded f = Some added ->
  let r := registerFadeDuration duration now_check now_set f in
  (r = (f, None)
   /\ (duration + added < now_check
       \/ exists cur, fadeEndTime f = Some cur /\ cur <> 0 /\ duration + added < cur))
  \/ (r = ({| timeAdded := Some added; fadeEndTime := Some (duration + added) |},
           Some (Some (duration + added - now_set)))
      /\ now_check <= duration + added
      /\ forall cur, fadeEndTime f = Some cur -> cur <> 0 -> cur <= duration + added).
Proof.
  intros Hadded. unfold registerFadeDuration. rewrite Hadded. cbn.
  destruct (duration + added <? now_check) eqn:Hpast.
  { left. split; [done |]. left. lia. }
  destruct (fadeEndTime f) as [cur |] eqn:Hcur.
  - destruct (JS.truthy cur) eqn:Htruthy; cbn.
    + destruct (duration + added <? cur) eqn:Hearlier.
      * left. split; [done |]. right. exists cur. split_and!; [done | | lia].
        intros ->. discriminate Htruthy.
      * right. split_and!; [done | lia |]. intros cur' [= <-] _. lia.
    + right. split_and!; [done | lia |]. intros cur' [= <-] Hnz.
      by rewrite (truthy_true _ Hnz) in Htruthy.
  - right. split_and!; [done | lia | done].
Qed.

Lemma registerFadeDuration_later_witness :
  let r := registerFadeDuration 300 1100 1150 Case.unfaded in
  timeAdded Case.unfaded = Some 1000
  /\ ((r = (Case.unfaded, None)
       /\ (300 + 1000 < 1100
           \/ exists cur, fadeEndTime Case.unfaded = Some cur /\ cur <> 0
                          /\ 300 + 1000 < cur))
      \/ (r = ({| timeAdded := Some 1000; fadeEndTime := Some (300 + 1000) |},
               Some (Some (300 + 1000 - 1150)))
          /\ 1100 <= 300 + 1000
          /\ forall cur, fadeEndTime Case.unfaded = Some cur -> cur <> 0 ->
               cur <= 300 + 1000)).
Proof.
  intros r. split; [reflexivity |].
  by apply (registerFadeDuration_later 300 1100 1150 Case.unfaded 1000).
Defined.

(** ** The cross-tile symbol index *)

Lemma added_loop_layers (c : TileCoord.t) (maxZoom : Z) (objs : list Bucket)
    (ls : list (string * nat)) :
  call_layer <$> removed_loop c maxZoom objs ls
  = call_layer <$> added_loop c maxZoom objs ls.
Proof.
  induction ls as [| [id obj] ls IH]; cbn; [done |].
  destruct (is_symbol objs obj); cbn; by rewrite IH.
Qed.

Lemma added_loop_elem (c : TileCoord.t) (maxZoom : Z) (objs : list Bucket)
    (ls : list (string * nat)) (id : string) (c' : TileCoord.t) (z' : Z) (obj : nat) :
  AddTileLayer id c' z' obj ∈ added_loop c maxZoom objs ls
  <-> (id, obj) ∈ ls /\ is_symbol objs obj = true /\ c' = c /\ z' = maxZoom.
Proof.
  induction ls as [| [id0 obj0] ls IH]; cbn.
  { rewrite !elem_of_nil. tauto. }
  destruct (is_symbol objs obj0) eqn:Hsym.
  - rewrite !elem_of_cons, IH. split.
    + intros [[= -> -> -> ->] | (Hin & Hs & -> & ->)]; split_and!; auto.
    + intros ([[= -> ->] | Hin] & Hs & -> & ->); auto.
  - rewrite elem_of_cons, IH. split.
    + intros (Hin & Hs & -> & ->). split_and!; auto.
    + intros ([[= -> ->] | Hin] & Hs & -> & ->); [congruence | auto].
Qed.

Lemma is_symbol_upload_buckets (ls : list (string * nat)) (objs : list Bucket)
    (obj : nat) :
  is_symbol (upload_buckets ls objs).1 obj = is_symbol objs obj.
Proof.
  unfold is_symbol. destruct (objs !! obj) as [b |] eqn:Hb.
  - destruct (upload_buckets_object ls objs obj b Hb) as [-> | ->]; [done |].
    by destruct b.
  - assert ((upload_buckets ls objs).1 !! obj = None) as ->; [| done].
    apply lookup_ge_None. rewrite upload_buckets_length. by apply lookup_ge_None.
Qed.

Lemma removed_loop_ext (c : TileCoord.t) (maxZoom : Z) (objs objs' : list Bucket)
    (ls : list (string * nat)) :
  (forall obj, is_symbol objs' obj = is_symbol objs obj) ->
  removed_loop c maxZoom objs' ls = removed_loop c maxZoom objs ls.
Proof.
  intros Hext. induction ls as [| [id obj] ls IH]; cbn; [done |].
  by rewrite Hext, IH.
Qed.

(** X6: [added] registers exactly the layers whose bucket is a symbol bucket,
    each with the tile's coordinate and source zoom, and [removed]
    unregisters the same layers in the same order, also when the tile was
    uploaded in between. *)
Theorem removed_matches_added (t : Tile) :
  (forall id c z obj,
     AddTileLayer id c z obj ∈ added t
     <-> (id, obj) ∈ layers (buckets t)
         /\ is_symbol (objects (buckets t)) obj = true
         /\ c = coord t /\ z = sourceMaxZoom t)
  /\ call_layer <$> removed t = call_layer <$> added t
  /\ removed (upload t).1 = removed t.
Proof.
  split_and!.
  - intros id c z obj. apply added_loop_elem.
  - apply added_loop_layers.
  - unfold removed. rewrite upload_buckets_field. cbn.
    assert (coord (upload t).1 = coord t /\ sourceMaxZoom (upload t).1 = sourceMaxZoom t)
      as [-> ->].
    { unfold upload. destruct (upload_buckets _ _). destruct t; cbn. by_cases. }
    apply removed_loop_ext. intros obj. apply is_symbol_upload_buckets.
Qed.

(** ** Committing a placement *)

Lemma commit_loop_no_handover {CI FT A : Type} (ft : FT) (angle : A)
    (objs : list Bucket) (ls : list (string * nat)) :
  Forall (fun c : PlacementCall CI FT A => is_handover c = false)
    (commit_loop ft angle objs ls).
Proof.
  induction ls as [| [id obj] ls IH]; cbn; [constructor |].
  destruct (is_symbol objs obj); [by repeat constructor | done].
Qed.

Lemma commit_loop_elem {CI FT A : Type} (ft : FT) (angle : A)
    (objs : list Bucket) (ls : list (string * nat)) (id : string) (obj : nat) :
  (id, obj) ∈ ls -> is_symbol objs obj = true ->
  exists pre post,
    commit_loop (CollisionIndex := CI) ft angle objs ls
    = pre ++ UpdateOpacities obj ft :: SortFeatures obj angle :: post.
Proof.
  induction ls as [| [id0 obj0] ls IH]; intros Hin Hsym.
  { by apply elem_of_nil in Hin. }
  cbn. apply elem_of_cons in Hin as [[= <- <-] | Hin].
  - rewrite Hsym. by exists [], (commit_loop ft angle objs ls).
  - destruct (IH Hin Hsym) as (pre & post & ->).
    destruct (is_symbol objs obj0).
    + by exists (UpdateOpacities obj0 ft :: SortFeatures obj0 angle :: pre), post.
    + by exists pre, post.
Qed.


(** ** Rendered-feature queries *)

Lemma Qmax_either (a b : QArith_base.Q) :
  Qminmax.Qmax a b = a \/ Qminmax.Qmax a b = b.
Proof.
  unfold Qminmax.Qmax, GenericMinMax.gmax.
  destruct (QArith_base.Qcompare a b); auto.
Qed.

Lemma additionalRadius_ge (t : Tile) (ls : list (string * StyleLayer))
    (radius : QArith_base.Q) :
  QArith_base.Qle radius (additionalRadius t ls radius).
Proof.
  revert radius. induction ls as [| [key layer] ls IH]; intros radius; cbn.
  { apply QArith_base.Qle_refl. }
  destruct (getBucket (sl_id layer) t) as [b |]; [| apply IH].
  eapply QArith_base.Qle_trans; [apply Qminmax.Q.le_max_l | apply IH].
Qed.

Lemma additionalRadius_covers (t : Tile) (ls : list (string * StyleLayer))
    (radius : QArith_base.Q) (key : string) (layer : StyleLayer) (b : Bucket) :
  (key, layer) ∈ ls -> getBucket (sl_id layer) t = Some b ->
  QArith_base.Qle (queryRadius layer b) (additionalRadius t ls radius).
Proof.
  revert radius. induction ls as [| [key0 layer0] ls IH]; intros radius Hin Hb.
  { by apply elem_of_nil in Hin. }
  cbn. apply elem_of_cons in Hin as [[= <- <-] | Hin].
  - rewrite Hb. eapply QArith_base.Qle_trans;
      [apply Qminmax.Q.le_max_r | apply additionalRadius_ge].
  - destruct (getBucket (sl_id layer0) t); by apply IH.
Qed.

Lemma additionalRadius_attained (t : Tile) (ls : list (string * StyleLayer))
    (radius : QArith_base.Q) :
  additionalRadius t ls radius = radius
  \/ exists key layer b,
       (key, layer) ∈ ls /\ getBucket (sl_id layer) t = Some b
       /\ additionalRadius t ls radius = queryRadius layer b.
Proof.
  revert radius. induction ls as [| [key0 layer0] ls IH]; intros radius; cbn; [by left |].
  destruct (getBucket (sl_id layer0) t) as [b0 |] eqn:Hb0.
  - destruct (IH (Qminmax.Qmax radius (queryRadius layer0 b0)))
      as [Heq | (key & layer & b & Hin & Hb & Heq)].
    + rewrite Heq. destruct (Qmax_either radius (queryRadius layer0 b0)) as [-> | ->];
        [by left |].
      right. exists key0, layer0, b0. split_and!; [apply list_elem_of_here | done | done].
    + right. exists key, layer, b. split_and!; [by apply list_elem_of_further | done | done].
  - destruct (IH radius) as [Heq | (key & layer & b & Hin & Hb & Heq)]; [by left |].
    right. exists key, layer, b. split_and!; [by apply list_elem_of_further | done | done].
Qed.



(** On the sample tile the radius is 4: the layer [hills], with the
    largest radius, has no bucket there. *)
Lemma additionalRadius_sample :
  additionalRadius Sample.ingested Case.style_layers (QArith_base.Qmake 0 1)
  = QArith_base.Qmake 4 1.
Proof. reflexivity. Qed.

(** ** After a release *)

